(** * Mermaid diagram rendering with theme refresh: a model of
    [src/utils/mermaid-init.ts]

    The module keeps two pieces of module-level state, the registry
    [mermaidCodeMap] (container element to original diagram source) and the
    counter [renderCount], and talks to two collaborators: the browser
    document and the [mermaid] rendering engine.  The development embeds the
    five closures of [initMermaid] as functions over an explicit state, first
    as passes that run from start to end, then as resumable passes that can be
    interleaved at their [await] points.

    How the collaborators are modelled:
    - an element is its identity, a number; [document.createElement] hands
      out the next unused one;
    - the document is the list of its attached elements in document order,
      with the classes, attributes and markup of every element kept in maps
      keyed by identity;
    - the result of the query for diagram code blocks is an input of the
      discovery pass: a static list, each entry with the [parentElement] and
      [textContent] the loop reads from it;
    - the engine is a function from the configuration in force, the
      identifier and the source to a result, markup or a thrown error; the
      calls it receives are logged. *)

From Stdlib Require Import Ascii DecimalString DecimalNat.
From stdpp Require Import gmap strings list fin_maps.

(** ** Strings *)

(** [String(n)] of JavaScript for a non-negative integer: its decimal digits. *)
Definition String_of_nat (n : nat) : string :=
  NilEmpty.string_of_uint (Nat.to_uint n).

(** The characters of a string, to reason about separators. *)
Fixpoint chars (s : string) : list ascii :=
  match s with
  | EmptyString => []
  | String c r => c :: chars r
  end.

Definition dash : ascii := "-"%char.

(** ** Themes *)

(** The TypeScript type ['dark' | 'light']. *)
Inductive Theme : Type :=
| dark
| light.

Definition theme_name (t : Theme) : string :=
  match t with
  | dark => "dark"
  | light => "light"
  end.

(** [getCurrentTheme], as a function of the only two things it reads:
    [document.documentElement.dataset.theme] (undefined when the attribute is
    absent) and [window.matchMedia('(prefers-color-scheme: dark)').matches]. *)
Definition getCurrentTheme (theme : option string) (matches : bool) : Theme :=
  match theme with
  | Some t =>
      if String.eqb t "dark" then dark
      else if String.eqb t "light" then light
      else if matches then dark else light
  | None => if matches then dark else light
  end.

(** The options object handed to [mermaid.initialize]. *)
Record MermaidConfig : Type := mkConfig {
  startOnLoad : bool;
  theme : string;
  fontFamily : string;
  securityLevel : string
}.

(** [initMermaidWithTheme] builds the engine configuration for a theme. *)
Definition config_for (t : Theme) : MermaidConfig :=
  {| startOnLoad := false;
     theme := match t with dark => "dark" | light => "default" end;
     fontFamily := "var(--serif)";
     securityLevel := "loose" |}.

(** ** Render identifiers *)

(** The template literal [`mermaid-${renderCount}-${index}`]. *)
Definition render_id (epoch index : nat) : string :=
  "mermaid-" +:+ String_of_nat epoch +:+ "-" +:+ String_of_nat index.

(** ** The state the module works on *)

(** A DOM element is known by its identity; the registry is keyed by it. *)
Abbreviation Element := nat (only parsing).

(** What [await mermaid.render(id, code)] yields: [{ svg }], or a thrown
    error, kept as the text [`${error}`] that the handler prints. *)
Inductive RenderResult : Type :=
| Resolved (svg : string)
| Rejected (error : string).

(** One entry of the static NodeList returned by
    [document.querySelectorAll('pre code.language-mermaid')], with the two
    properties the loop reads from it. *)
Record CodeBlock : Type := mkCodeBlock {
  parentElement : option Element;
  textContent : option string
}.

(** A call received by the engine: the configuration in force, and the two
    arguments of [mermaid.render]. *)
Record RenderCall : Type := mkCall {
  call_config : MermaidConfig;
  call_id : string;
  call_code : string
}.

Record State : Type := mkState {
  (* the document *)
  dataset_theme : option string;   (* document.documentElement.dataset.theme *)
  prefers_dark : bool;             (* matchMedia('(prefers-color-scheme: dark)').matches *)
  body : list Element;             (* the attached elements, in document order;
                                      no element of the list is inside another *)
  classList : gmap Element (list string);
  attributes : gmap (Element * string) string;
  innerHTML : gmap Element string;
  next_element : Element;          (* identity of the next created element *)
  (* module-level variables *)
  mermaidCodeMap : gmap Element string;
  renderCount : nat;
  (* the engine *)
  mermaid_config : MermaidConfig;  (* last argument of mermaid.initialize *)
  render_calls : list RenderCall;  (* the calls received so far, oldest first *)
  (* console.error *)
  console : list string
}.

Definition set_dataset_theme (v : option string) (st : State) : State :=
  mkState v (prefers_dark st) (body st) (classList st) (attributes st)
    (innerHTML st) (next_element st) (mermaidCodeMap st) (renderCount st)
    (mermaid_config st) (render_calls st) (console st).

Definition set_body (v : list Element) (st : State) : State :=
  mkState (dataset_theme st) (prefers_dark st) v (classList st) (attributes st)
    (innerHTML st) (next_element st) (mermaidCodeMap st) (renderCount st)
    (mermaid_config st) (render_calls st) (console st).

Definition set_classList (v : gmap Element (list string)) (st : State) : State :=
  mkState (dataset_theme st) (prefers_dark st) (body st) v (attributes st)
    (innerHTML st) (next_element st) (mermaidCodeMap st) (renderCount st)
    (mermaid_config st) (render_calls st) (console st).

Definition set_attributes (v : gmap (Element * string) string) (st : State) : State :=
  mkState (dataset_theme st) (prefers_dark st) (body st) (classList st) v
    (innerHTML st) (next_element st) (mermaidCodeMap st) (renderCount st)
    (mermaid_config st) (render_calls st) (console st).

Definition set_innerHTML (v : gmap Element string) (st : State) : State :=
  mkState (dataset_theme st) (prefers_dark st) (body st) (classList st)
    (attributes st) v (next_element st) (mermaidCodeMap st) (renderCount st)
    (mermaid_config st) (render_calls st) (console st).

Definition set_next_element (v : Element) (st : State) : State :=
  mkState (dataset_theme st) (prefers_dark st) (body st) (classList st)
    (attributes st) (innerHTML st) v (mermaidCodeMap st) (renderCount st)
    (mermaid_config st) (render_calls st) (console st).

Definition set_mermaidCodeMap (v : gmap Element string) (st : State) : State :=
  mkState (dataset_theme st) (prefers_dark st) (body st) (classList st)
    (attributes st) (innerHTML st) (next_element st) v (renderCount st)
    (mermaid_config st) (render_calls st) (console st).

Definition set_renderCount (v : nat) (st : State) : State :=
  mkState (dataset_theme st) (prefers_dark st) (body st) (classList st)
    (attributes st) (innerHTML st) (next_element st) (mermaidCodeMap st) v
    (mermaid_config st) (render_calls st) (console st).

Definition set_mermaid_config (v : MermaidConfig) (st : State) : State :=
  mkState (dataset_theme st) (prefers_dark st) (body st) (classList st)
    (attributes st) (innerHTML st) (next_element st) (mermaidCodeMap st)
    (renderCount st) v (render_calls st) (console st).

Definition set_render_calls (v : list RenderCall) (st : State) : State :=
  mkState (dataset_theme st) (prefers_dark st) (body st) (classList st)
    (attributes st) (innerHTML st) (next_element st) (mermaidCodeMap st)
    (renderCount st) (mermaid_config st) v (console st).

Definition set_console (v : list string) (st : State) : State :=
  mkState (dataset_theme st) (prefers_dark st) (body st) (classList st)
    (attributes st) (innerHTML st) (next_element st) (mermaidCodeMap st)
    (renderCount st) (mermaid_config st) (render_calls st) v.

(** ** Document operations *)

(** [document.createElement('div')]: a new element, not attached, no class. *)
Definition createElement (st : State) : Element * State :=
  (next_element st, set_next_element (S (next_element st)) st).

(** [el.className = cls] for a single class name. *)
Definition assign_className (el : Element) (cls : string) (st : State) : State :=
  set_classList (<[el := [cls]]> (classList st)) st.

Definition setAttribute (el : Element) (name value : string) (st : State) : State :=
  set_attributes (<[(el, name) := value]> (attributes st)) st.

(** [el.innerHTML = html]. *)
Definition assign_innerHTML (el : Element) (html : string) (st : State) : State :=
  set_innerHTML (<[el := html]> (innerHTML st)) st.

(** The first occurrence of [old] gives its place to [new]. *)
Fixpoint substitute (old new : Element) (l : list Element) : list Element :=
  match l with
  | [] => []
  | x :: r => if decide (x = old) then new :: r else x :: substitute old new r
  end.

(** [old.replaceWith(new)] on a document kept as a list of elements side by
    side: nothing happens when [old] is not in the list; otherwise [new]
    leaves the place it had, if any, and takes the place of [old].  The list
    records no nesting: a wrapper inside another wrapper, which the browser
    takes out of the document together with the outer one, is not
    described, and the properties below that speak of the document after a
    discovery pass are about wrappers that are side by side. *)
Definition replaceWith (old new : Element) (st : State) : State :=
  if decide (old ∈ body st)
  then set_body (substitute old new (filter (λ x, x ≠ new) (body st))) st
  else st.

(** The selector [.mermaid] matches an element whose class list has the
    token. *)
Definition has_class (st : State) (cls : string) (el : Element) : Prop :=
  cls ∈ default [] (classList st !! el).

#[global] Instance has_class_dec st cls el : Decision (has_class st cls el).
Proof. unfold has_class. apply _. Defined.

(** [document.querySelectorAll('.mermaid')]. *)
Definition querySelectorAll_mermaid (st : State) : list Element :=
  filter (has_class st "mermaid") (body st).

(** [console.error(label, error)]. *)
Definition console_error (label error : string) (st : State) : State :=
  set_console (console st ++ [label +:+ " " +:+ error]) st.

(** ** The passes *)

(** The markup of the [catch] branch. *)
Definition error_placeholder (error : string) : string :=
  "<pre>Mermaid Error: " +:+ error +:+ "</pre>".

(** What ends up in [innerHTML] once the awaited call has settled. *)
Definition displayed (r : RenderResult) : string :=
  match r with
  | Resolved svg => svg
  | Rejected error => error_placeholder error
  end.

(** [initMermaidWithTheme]: [mermaid.initialize] replaces the configuration
    shared by every later render call. *)
Definition initMermaidWithTheme (t : Theme) (st : State) : State :=
  set_mermaid_config (config_for t) st.

Definition current_theme (st : State) : Theme :=
  getCurrentTheme (dataset_theme st) (prefers_dark st).

(** The body of the [try] once the promise has settled, and the [catch]. *)
Definition settle (label : string) (el : Element) (r : RenderResult)
    (st : State) : State :=
  match r with
  | Resolved svg => assign_innerHTML el svg st
  | Rejected error =>
      assign_innerHTML el (error_placeholder error) (console_error label error st)
  end.

(** [codeBlock.textContent || '']: a null or empty text gives the empty
    string. *)
Definition source_text (codeBlock : CodeBlock) : string :=
  match textContent codeBlock with
  | Some t => if decide (t = "") then "" else t
  | None => ""
  end.

(** The registered diagrams a refresh pass renders, with their sources, in
    the order of the query result: those for which [mermaidCodeMap.get]
    returns a non-empty string. *)
Definition refreshable (registry : gmap Element string)
    (diagrams : list Element) : list (Element * string) :=
  omap (λ d, match registry !! d with
             | Some code => if decide (code = "") then None else Some (d, code)
             | None => None
             end) diagrams.

(** The code blocks a discovery pass turns into containers, as the wrapper to
    replace and the source to register. *)
Definition discoverable (codeBlocks : list CodeBlock)
    : list (Element * string) :=
  omap (λ cb, match parentElement cb with
              | Some pre => Some (pre, source_text cb)
              | None => None
              end) codeBlocks.

(** The diagrams a refresh pass renders, from the state it starts in. *)
Definition refreshed (st : State) : list (Element * string) :=
  refreshable (mermaidCodeMap st) (querySelectorAll_mermaid st).

(** The page over time, when every pass ends before anything else happens:
    a call of the discovery pass, a call of the refresh pass, or a script
    setting the theme attribute. *)
Inductive Turn : Type :=
| DiscoveryTurn (codeBlocks : list CodeBlock)
| RefreshTurn
| ThemeTurn (value : option string).

Section Passes.

(** The engine: the result of [mermaid.render(id, code)] under the
    configuration in force when the call is made. *)
Variable mermaid_render : MermaidConfig → string → string → RenderResult.

(** [mermaid.render(id, code)], seen from the module: the engine receives
    the call and will answer with its result. *)
Definition call_render (id code : string) (st : State) : RenderResult * State :=
  (mermaid_render (mermaid_config st) id code,
   set_render_calls (render_calls st ++ [mkCall (mermaid_config st) id code]) st).

(** *** Discovery pass: [renderMermaidDiagrams] *)

(** One iteration of the discovery loop up to its [await]: the container is
    created, marked, registered, and the render call is issued. *)
Definition discover_block (code : string) (index : nat) (st : State)
    : Element * RenderResult * State :=
  let '(container, st) := createElement st in
  let st := assign_className container "mermaid" st in
  let st := setAttribute container "data-mermaid-index" (String_of_nat index) st in
  let st := set_mermaidCodeMap (<[container := code]> (mermaidCodeMap st)) st in
  let id := render_id (renderCount st) index in
  let '(r, st) := call_render id code st in
  (container, r, st).

(** The rest of the iteration, after the [await]. *)
Definition place_block (pre container : Element) (r : RenderResult)
    (st : State) : State :=
  replaceWith pre container (settle "Mermaid rendering error:" container r st).

(** A whole iteration, when nothing else runs during the [await]. *)
Definition render_block (pre : Element) (code : string) (index : nat)
    (st : State) : State :=
  let '(container, r, st) := discover_block code index st in
  place_block pre container r st.

Fixpoint discovery_loop (codeBlocks : list CodeBlock) (index : nat)
    (st : State) : State :=
  match codeBlocks with
  | [] => st
  | codeBlock :: rest =>
      match parentElement codeBlock with
      | None => discovery_loop rest index st
      | Some pre =>
          let code := source_text codeBlock in
          discovery_loop rest (S index) (render_block pre code index st)
      end
  end.

(** [renderMermaidDiagrams], run from start to end; [codeBlocks] is the
    result of the query for [pre code.language-mermaid]. *)
Definition renderMermaidDiagrams (codeBlocks : list CodeBlock) (st : State)
    : State :=
  let st := initMermaidWithTheme (current_theme st) st in
  let st := discovery_loop codeBlocks 0 st in
  set_renderCount (S (renderCount st)) st.

(** *** Refresh pass: [reRenderMermaidDiagrams] *)

(** The [try] of one iteration, when nothing else runs during the
    [await]. *)
Definition rerender_diagram (diagram : Element) (code : string)
    (index : nat) (st : State) : State :=
  let id := render_id (renderCount st) index in
  let '(r, st) := call_render id code st in
  settle "Mermaid re-rendering error:" diagram r st.

Fixpoint refresh_loop (diagrams : list Element) (index : nat) (st : State)
    : State :=
  match diagrams with
  | [] => st
  | diagram :: rest =>
      match mermaidCodeMap st !! diagram with
      | None => refresh_loop rest index st
      | Some code =>
          if decide (code = "") then refresh_loop rest index st
          else refresh_loop rest (S index)
                 (rerender_diagram diagram code index st)
      end
  end.

(** [reRenderMermaidDiagrams], run from start to end. *)
Definition reRenderMermaidDiagrams (st : State) : State :=
  let st := initMermaidWithTheme (current_theme st) st in
  match querySelectorAll_mermaid st with
  | [] => st
  | diagrams =>
      let st := refresh_loop diagrams 0 st in
      set_renderCount (S (renderCount st)) st
  end.

(** *** The loops over what they render *)

(** The refresh loop, seen as a loop over the diagrams it renders. *)
Fixpoint rerender_all (items : list (Element * string)) (index : nat)
    (st : State) : State :=
  match items with
  | [] => st
  | (diagram, code) :: rest =>
      rerender_all rest (S index)
        (rerender_diagram diagram code index st)
  end.

(** The discovery loop, seen as a loop over the blocks it turns into
    containers. *)
Fixpoint render_blocks (items : list (Element * string)) (index : nat)
    (st : State) : State :=
  match items with
  | [] => st
  | (pre, code) :: rest =>
      render_blocks rest (S index)
        (render_block pre code index st)
  end.

(** *** Passes run one after the other *)

Definition take_turn (st : State) (t : Turn) : State :=
  match t with
  | DiscoveryTurn codeBlocks =>
      renderMermaidDiagrams codeBlocks st
  | RefreshTurn => reRenderMermaidDiagrams st
  | ThemeTurn value => set_dataset_theme value st
  end.

Definition take_turns (turns : list Turn) (st : State) : State :=
  foldl take_turn st turns.

End Passes.

(** ** The theme watcher: [observeThemeChange] *)

Inductive MutationType : Type :=
| attributes_type
| characterData_type
| childList_type.

#[global] Instance MutationType_eq_dec : EqDecision MutationType.
Proof. solve_decision. Defined.

(** The two fields of a [MutationRecord] that the callback reads. *)
Record MutationRecord : Type := mkRecord {
  mutation_type : MutationType;
  attributeName : option string
}.

(** The test of the callback's [if]. *)
Definition is_theme_record (mutation : MutationRecord) : bool :=
  bool_decide (mutation_type mutation = attributes_type)
  && bool_decide (attributeName mutation = Some "data-theme").

(** The observer callback: the loop calls [reRenderMermaidDiagrams] at the
    first matching record and leaves by [break].  The call is a parameter, so
    that the same loop serves to count the calls and to start passes. *)
Fixpoint observer_callback {A : Type} (reRender : A → A)
    (mutations : list MutationRecord) (a : A) : A :=
  match mutations with
  | [] => a
  | mutation :: rest =>
      if is_theme_record mutation then reRender a
      else observer_callback reRender rest a
  end.

(** The number of calls of [reRenderMermaidDiagrams] made for a batch. *)
Definition refresh_requests (mutations : list MutationRecord) : nat :=
  observer_callback S mutations 0.

(** A change somewhere in the page, before the observer's options are
    applied: whether its target is [document.documentElement], and the record
    it would be reported as. *)
Record DomMutation : Type := mkMutation {
  on_root : bool;
  reported : MutationRecord
}.

(** [observer.observe(document.documentElement, { attributes: true,
    attributeFilter: ['data-theme'] })]: the records the browser queues for
    this observer are the attribute changes of the root whose name is in the
    filter (no [subtree], [childList] or [characterData] is asked for). *)
Definition attributeFilter : list string := ["data-theme"].

Definition observed (m : DomMutation) : bool :=
  on_root m
  && bool_decide (mutation_type (reported m) = attributes_type)
  && match attributeName (reported m) with
     | Some name => bool_decide (name ∈ attributeFilter)
     | None => false
     end.

Definition delivered (batch : list DomMutation) : list MutationRecord :=
  reported <$> List.filter observed batch.

(** The number of refresh passes requested for one batch of page changes. *)
Definition watcher_requests (batch : list DomMutation) : nat :=
  refresh_requests (delivered batch).

(** ** Passes that can be interleaved *)

(** Both passes are [async] functions: each [await mermaid.render(...)]
    suspends the pass, and the page goes on with other events until the
    promise settles.  A suspended pass is what remains to be done once the
    awaited result [pending] arrives. *)
Inductive Continuation : Type :=
| AwaitDiscovery (pending : RenderResult) (pre container : Element)
    (index : nat) (rest : list CodeBlock)
| AwaitRefresh (pending : RenderResult) (diagram : Element)
    (index : nat) (rest : list Element).

Section Interleaving.

Variable mermaid_render : MermaidConfig → string → string → RenderResult.

(** The discovery loop run up to its next [await], or to the end of the
    pass, where [renderCount++] is executed. *)
Fixpoint discovery_advance (codeBlocks : list CodeBlock) (index : nat)
    (st : State) : State * option Continuation :=
  match codeBlocks with
  | [] => (set_renderCount (S (renderCount st)) st, None)
  | codeBlock :: rest =>
      match parentElement codeBlock with
      | None => discovery_advance rest index st
      | Some pre =>
          let code := source_text codeBlock in
          let '(container, r, st) :=
            discover_block mermaid_render code index st in
          (st, Some (AwaitDiscovery r pre container index rest))
      end
  end.

Fixpoint refresh_advance (diagrams : list Element) (index : nat)
    (st : State) : State * option Continuation :=
  match diagrams with
  | [] => (set_renderCount (S (renderCount st)) st, None)
  | diagram :: rest =>
      match mermaidCodeMap st !! diagram with
      | None => refresh_advance rest index st
      | Some code =>
          if decide (code = "") then refresh_advance rest index st
          else
            let id := render_id (renderCount st) index in
            let '(r, st) := call_render mermaid_render id code st in
            (st, Some (AwaitRefresh r diagram index rest))
      end
  end.

(** A call of [renderMermaidDiagrams()]: what runs before control returns
    to the caller. *)
Definition start_discovery (codeBlocks : list CodeBlock) (st : State)
    : State * option Continuation :=
  discovery_advance codeBlocks 0 (initMermaidWithTheme (current_theme st) st).

(** A call of [reRenderMermaidDiagrams()]. *)
Definition start_refresh (st : State) : State * option Continuation :=
  let st := initMermaidWithTheme (current_theme st) st in
  match querySelectorAll_mermaid st with
  | [] => (st, None)
  | diagrams => refresh_advance diagrams 0 st
  end.

(** The awaited promise settles and the pass goes on. *)
Definition resume (k : Continuation) (st : State)
    : State * option Continuation :=
  match k with
  | AwaitDiscovery r pre container index rest =>
      discovery_advance rest (S index) (place_block pre container r st)
  | AwaitRefresh r diagram index rest =>
      refresh_advance rest (S index)
        (settle "Mermaid re-rendering error:" diagram r st)
  end.

(** The page: the shared state, the suspended passes, oldest first, and the
    number of theme observers registered so far. *)
Record Page : Type := mkPage {
  store : State;
  in_flight : list Continuation;
  observers : nat
}.

(** An [async] function is called: it runs up to its first [await], where it
    joins the suspended passes, or to its end. *)
Definition spawn (start : State → State * option Continuation) (pg : Page)
    : Page :=
  let p := start (store pg) in
  mkPage p.1 (in_flight pg ++ option_list p.2) (observers pg).

(** [observeThemeChange]: one more observer of the root's [data-theme]. *)
Definition observeThemeChange (pg : Page) : Page :=
  mkPage (store pg) (in_flight pg) (S (observers pg)).

(** [initMermaid]: the discovery pass is called, then the observer is
    registered. *)
Definition initMermaid (codeBlocks : list CodeBlock) (pg : Page) : Page :=
  observeThemeChange (spawn (start_discovery codeBlocks) pg).

(** What can happen, one event loop turn each:
    - the content has loaded and [initMermaid] is called;
    - a script sets [data-theme] on the root (a value [Some v]) or removes
      it ([None]), once for each element of [values], in one synchronous
      run; every registered observer then receives the records queued;
    - the render call awaited by the [k]-th suspended pass settles. *)
Inductive Event : Type :=
| ContentLoaded (codeBlocks : list CodeBlock)
| ThemeSet (values : list (option string))
| Settled (k : nat).

(** The record of a change of [data-theme] on the root. *)
Definition theme_mutation : DomMutation :=
  mkMutation true (mkRecord attributes_type (Some "data-theme")).

(** The changes the browser records while the attribute, [current] at
    first, is set or removed in turn: setting it is recorded every time, also
    with the value it has; removing it is recorded when it is present, and
    does nothing when it is absent. *)
Fixpoint theme_batch (current : option string)
    (values : list (option string)) : list DomMutation :=
  match values with
  | [] => []
  | value :: rest =>
      match current, value with
      | None, None => theme_batch None rest
      | _, _ => theme_mutation :: theme_batch value rest
      end
  end.

Definition step (pg : Page) (ev : Event) : Page :=
  match ev with
  | ContentLoaded codeBlocks => initMermaid codeBlocks pg
  | ThemeSet values =>
      let st := foldl (λ st v, set_dataset_theme v st) (store pg) values in
      Nat.iter (observers pg)
        (observer_callback (spawn start_refresh)
           (delivered (theme_batch (dataset_theme (store pg)) values)))
        (mkPage st (in_flight pg) (observers pg))
  | Settled k =>
      match in_flight pg !! k with
      | None => pg
      | Some c =>
          let p := resume c (store pg) in
          match p.2 with
          | Some c' => mkPage p.1 (<[k := c']> (in_flight pg)) (observers pg)
          | None => mkPage p.1 (delete k (in_flight pg)) (observers pg)
          end
      end
  end.

Definition run (events : list Event) (pg : Page) : Page :=
  foldl step pg events.

(** A page on which a single pass has just gone on to its next [await], or
    to its end. *)
Definition alone (p : State * option Continuation) (n : nat) : Page :=
  mkPage p.1 (option_list p.2) n.

(** The element a suspended pass will write to, and the result it waits
    for. *)
Definition awaited_element (c : Continuation) : Element :=
  match c with
  | AwaitDiscovery _ _ container _ _ => container
  | AwaitRefresh _ diagram _ _ => diagram
  end.

Definition awaited_result (c : Continuation) : RenderResult :=
  match c with
  | AwaitDiscovery r _ _ _ _ => r
  | AwaitRefresh r _ _ _ => r
  end.

End Interleaving.

(** ** Notions used to state the properties *)

Definition os_theme (matches : bool) : Theme :=
  if matches then dark else light.

(** The calls a refresh pass makes: one for each diagram it renders, in
    order, numbered from [index]. *)
Definition refresh_calls (cfg : MermaidConfig) (epoch index : nat)
    (items : list (Element * string)) : list RenderCall :=
  imap (λ k item, mkCall cfg (render_id epoch (index + k)) item.2) items.

(** The identifiers of the calls made since the log had length [n]. *)
Definition ids_since (n : nat) (st : State) : list string :=
  call_id <$> drop n (render_calls st).

(** The lines [console.error] prints for a list of render calls: one for
    each call on which the engine throws. *)
Definition failure_lines (label : string)
    (render : MermaidConfig → string → string → RenderResult)
    (calls : list RenderCall) : list string :=
  omap (λ c, match render (call_config c) (call_id c) (call_code c) with
             | Resolved _ => None
             | Rejected error => Some (label +:+ " " +:+ error)
             end) calls.

(** The registry knows existing elements only. *)
Definition registry_fresh (st : State) : Prop :=
  ∀ e, is_Some (mermaidCodeMap st !! e) → e < next_element st.

(** Every registered element is a container made by the module. *)
Definition registered_are_containers (st : State) : Prop :=
  registry_fresh st
  ∧ ∀ e, is_Some (mermaidCodeMap st !! e) →
         classList st !! e = Some ["mermaid"]
         ∧ is_Some (attributes st !! (e, "data-mermaid-index")).

(** ** Concrete pages *)

(** An engine to run the passes with: it rejects one source, and otherwise
    returns markup that shows the identifier, the theme and the source. *)
Definition demo_render (cfg : MermaidConfig) (id code : string)
    : RenderResult :=
  if decide (code = "graph TD; A-->")
  then Rejected "Error: Parse error on line 1"
  else Resolved ("<svg id=" +:+ id +:+ " class=" +:+ theme cfg +:+ ">"
                 +:+ code +:+ "</svg>").

(** A page that has just loaded: no theme attribute, a host that prefers
    light, the given wrappers in the document, nothing registered. *)
Definition loaded_page (wrappers : list Element) : State :=
  {| dataset_theme := None;
     prefers_dark := false;
     body := wrappers;
     classList := ∅;
     attributes := ∅;
     innerHTML := ∅;
     next_element := 100;
     mermaidCodeMap := ∅;
     renderCount := 0;
     mermaid_config := mkConfig true "default" "trebuchet ms" "strict";
     render_calls := [];
     console := [] |}.

Definition one_block : list CodeBlock :=
  [mkCodeBlock (Some 1) (Some "graph TD; A-->B;")].

Definition three_blocks : list CodeBlock :=
  [mkCodeBlock (Some 1) (Some "graph TD; A-->B;");
   mkCodeBlock (Some 2) (Some "graph TD; A-->");
   mkCodeBlock (Some 3) (Some "graph LR; C-->D;")].

Definition empty_block : list CodeBlock :=
  [mkCodeBlock (Some 1) (Some "")].

(** The page with one diagram, once the discovery pass has ended. *)
Definition one_diagram : State :=
  renderMermaidDiagrams demo_render one_block (loaded_page [1]).

Definition three_diagrams : State :=
  renderMermaidDiagrams demo_render three_blocks (loaded_page [1; 2; 3]).

(** The page with one block loads and the discovery pass runs to its end. *)
Definition page_load : list Event :=
  [ContentLoaded one_block; Settled 0].

Definition before_load : Page := mkPage (loaded_page [1]) [] 0.

(** The theme is set to dark, and to light before the render call of the
    first refresh pass has settled. *)
Definition two_flips : list Event :=
  [ThemeSet [Some "dark"]; ThemeSet [Some "light"]].

(** * Properties *)

(** ** The theme resolver *)

Lemma getCurrentTheme_absent matches :
  getCurrentTheme None matches = os_theme matches.
Proof. reflexivity. Qed.

Lemma getCurrentTheme_other v matches :
  v ≠ "dark" → v ≠ "light" →
  getCurrentTheme (Some v) matches = os_theme matches.
Proof.
  intros Hd Hl. unfold getCurrentTheme.
  destruct (String.eqb_spec v "dark") as [->|_]; [done|].
  destruct (String.eqb_spec v "light") as [->|_]; done.
Qed.

(** C5, as amended.  [getCurrentTheme] is a total function of the attribute
    and of the media query; its value is always dark or light; the attribute
    is used when it is present with the value "dark" or "light"; in every
    other case (attribute absent, or present with another value) the
    dark-mode preference of the host decides. *)
Theorem getCurrentTheme_resolves (theme : option string) (matches : bool) :
  (theme_name (getCurrentTheme theme matches) = "dark"
   ∨ theme_name (getCurrentTheme theme matches) = "light")
  ∧ (∀ v, theme = Some v → v = "dark" ∨ v = "light" →
          theme_name (getCurrentTheme theme matches) = v)
  ∧ ((theme = None ∨ ∃ v, theme = Some v ∧ v ≠ "dark" ∧ v ≠ "light") →
     getCurrentTheme theme matches = os_theme matches).
Proof.
  split; [|split].
  - destruct (getCurrentTheme theme matches); [by left | by right].
  - intros v -> [-> | ->]; reflexivity.
  - intros [-> | (v & -> & Hd & Hl)].
    + apply getCurrentTheme_absent.
    + by apply getCurrentTheme_other.
Qed.

(** The resolver at a concrete document state: the attribute carries a value
    that is not a theme, the host prefers dark. *)
Lemma getCurrentTheme_resolves_witness :
  getCurrentTheme (Some "auto") true = os_theme true.
Proof.
  apply (getCurrentTheme_resolves (Some "auto") true).
  right. exists "auto". repeat split; discriminate.
Defined.

(** C5 as first stated says that a present attribute is used.  Here the
    attribute is present, its value is not the one returned, and the result
    follows the media query. *)
Lemma getCurrentTheme_present_not_used :
  theme_name (getCurrentTheme (Some "sepia") true) = "dark"
  ∧ theme_name (getCurrentTheme (Some "sepia") false) = "light"
  ∧ theme_name (getCurrentTheme (Some "sepia") true) ≠ "sepia".
Proof. repeat split; discriminate. Qed.

(** ** The theme watcher *)

Lemma observer_callback_spec {A : Type} (f : A → A) mutations (a : A) :
  observer_callback f mutations a
  = if existsb is_theme_record mutations then f a else a.
Proof.
  induction mutations as [|m rest IH]; simpl; [done|].
  destruct (is_theme_record m); done.
Qed.

Lemma is_theme_record_iff m :
  is_theme_record m = true
  ↔ mutation_type m = attributes_type ∧ attributeName m = Some "data-theme".
Proof.
  unfold is_theme_record.
  rewrite andb_true_iff, !bool_decide_eq_true. done.
Qed.

Lemma observed_iff m :
  observed m = true
  ↔ on_root m = true ∧ is_theme_record (reported m) = true.
Proof.
  unfold observed, is_theme_record, attributeFilter.
  destruct (on_root m); simpl; [|by split; [|intros [? _]]].
  destruct (attributeName (reported m)) as [name|]; simpl.
  - rewrite !andb_true_iff, !bool_decide_eq_true.
    rewrite list_elem_of_singleton.
    split; [intros [? ->]; done | intros [_ [? [= ->]]]; done].
  - rewrite !andb_true_iff, !bool_decide_eq_true.
    split; [intros [_ ?]; done | intros [_ [_ ?]]; done].
Qed.

Lemma existsb_delivered batch :
  existsb is_theme_record (delivered batch) = existsb observed batch.
Proof.
  unfold delivered. induction batch as [|m rest IH]; simpl; [done|].
  destruct (observed m) eqn:Hm; simpl.
  - apply observed_iff in Hm as [_ ->]. done.
  - done.
Qed.

(** C9.  For every batch of page changes the watcher requests a refresh pass
    exactly when the batch holds an attribute change of [data-theme] on the
    document root, it requests at most one pass for the batch, and it
    requests none when no change of the batch is such a change; the callback
    itself, on the records it receives, calls the refresh pass once when one
    of them is an attribute record named [data-theme], and not at all
    otherwise. *)
Theorem watcher_requests_one_per_theme_batch (batch : list DomMutation) :
  (watcher_requests batch = 1
   ↔ ∃ m, m ∈ batch ∧ on_root m = true
          ∧ mutation_type (reported m) = attributes_type
          ∧ attributeName (reported m) = Some "data-theme")
  ∧ watcher_requests batch ≤ 1
  ∧ ((∀ m, m ∈ batch → attributeName (reported m) ≠ Some "data-theme") →
     watcher_requests batch = 0)
  ∧ (∀ records : list MutationRecord,
       refresh_requests records
       = if existsb is_theme_record records then 1 else 0).
Proof.
  assert (Hcb : ∀ records, refresh_requests records
                = if existsb is_theme_record records then 1 else 0).
  { intros records. unfold refresh_requests. apply observer_callback_spec. }
  unfold watcher_requests. rewrite Hcb, existsb_delivered.
  split; [|split; [|split]]; [| | |exact Hcb].
  - destruct (existsb observed batch) eqn:He.
    + split; [intros _|done].
      apply existsb_exists in He as (m & Hin & Hm).
      apply observed_iff in Hm as [Hr Ht].
      apply is_theme_record_iff in Ht as [??].
      exists m. by rewrite list_elem_of_In.
    + split; [done|]. intros (m & Hin & Hr & Ht & Hn).
      assert (existsb observed batch = true) as Hc; [|congruence].
      apply existsb_exists. exists m. split; [by apply list_elem_of_In|].
      apply observed_iff. split; [done|]. by apply is_theme_record_iff.
  - destruct (existsb observed batch); lia.
  - intros Hnone. destruct (existsb observed batch) eqn:He; [|done].
    apply existsb_exists in He as (m & Hin & Hm).
    apply observed_iff in Hm as [_ Ht].
    apply is_theme_record_iff in Ht as [_ Hn].
    apply list_elem_of_In in Hin. by destruct (Hnone m Hin).
Qed.

(** A batch with two unrelated changes around three theme changes, one of
    them deeper in the page: one request. *)
Lemma watcher_requests_one_per_theme_batch_witness :
  watcher_requests
    [ mkMutation true (mkRecord attributes_type (Some "class"));
      mkMutation false (mkRecord attributes_type (Some "data-theme"));
      mkMutation true (mkRecord attributes_type (Some "data-theme"));
      mkMutation true (mkRecord attributes_type (Some "data-theme"));
      mkMutation true (mkRecord childList_type None) ] = 1
  ∧ watcher_requests
      [ mkMutation true (mkRecord attributes_type (Some "class"));
        mkMutation true (mkRecord childList_type None) ] = 0.
Proof.
  split.
  - apply (proj2 (proj1 (watcher_requests_one_per_theme_batch _))).
    exists (mkMutation true (mkRecord attributes_type (Some "data-theme"))).
    repeat split; try reflexivity.
    do 2 apply list_elem_of_further. apply list_elem_of_here.
  - apply (proj1 (proj2 (proj2 (watcher_requests_one_per_theme_batch _)))).
    intros m Hin.
    apply elem_of_cons in Hin as [-> | Hin]; [discriminate|].
    apply elem_of_cons in Hin as [-> | Hin]; [discriminate|].
    by apply elem_of_nil in Hin.
Defined.

(** ** Render identifiers *)

Lemma chars_app s t : chars (s +:+ t) = chars s ++ chars t.
Proof. induction s as [|c s IH]; simpl; [done | by rewrite IH]. Qed.

Lemma chars_inj s t : chars s = chars t → s = t.
Proof.
  revert t. induction s as [|c s IH]; intros [|c' t]; simpl; try done.
  intros [= -> Hst]. f_equal. by apply IH.
Qed.

Lemma string_of_uint_no_dash d :
  Forall (λ c, c ≠ dash) (chars (NilEmpty.string_of_uint d)).
Proof. induction d; simpl; constructor; done. Qed.

Lemma String_of_nat_inj n m : String_of_nat n = String_of_nat m → n = m.
Proof.
  unfold String_of_nat. intros H.
  apply (f_equal NilEmpty.uint_of_string) in H.
  rewrite !NilEmpty.usu in H. injection H as H.
  by apply DecimalNat.Unsigned.to_uint_inj.
Qed.

(** Two texts without dash, each followed by a dash and more: the first dash
    ends the first text in both. *)
Lemma app_dash_inj (a a' b b' : list ascii) :
  Forall (λ c, c ≠ dash) a → Forall (λ c, c ≠ dash) a' →
  a ++ dash :: b = a' ++ dash :: b' → a = a' ∧ b = b'.
Proof.
  intros Ha. revert a'. induction Ha as [|c a Hc Ha IH]; intros a' Ha' Heq.
  - destruct Ha' as [|c' a' Hc' Ha']; simpl in *.
    + by injection Heq as ->.
    + injection Heq as <- _. done.
  - destruct Ha' as [|c' a' Hc' Ha']; simpl in *.
    + injection Heq as -> _. done.
    + injection Heq as -> Heq. destruct (IH a' Ha' Heq) as [-> ->]. done.
Qed.

(** Distinct pairs of epoch and index give distinct identifiers. *)
Lemma render_id_inj epoch index epoch' index' :
  render_id epoch index = render_id epoch' index' →
  epoch = epoch' ∧ index = index'.
Proof.
  unfold render_id. intros H. apply (f_equal chars) in H.
  rewrite !chars_app in H. apply app_inv_head in H.
  change (chars "-") with [dash] in H. simpl in H.
  apply app_dash_inj in H as [He Hi];
    [|apply string_of_uint_no_dash..].
  split; apply String_of_nat_inj, chars_inj; done.
Qed.

#[global] Instance render_id_pair_inj :
  Inj (=) (=) (λ p : nat * nat, render_id p.1 p.2).
Proof.
  intros [e i] [e' i'] H. simpl in H.
  by apply render_id_inj in H as [-> ->].
Qed.

(** ** Passes run from start to end *)

(** Reading a field of the state left by the final [renderCount++]. *)
Ltac past_increment :=
  cbn [set_renderCount dataset_theme prefers_dark body classList attributes
       innerHTML next_element mermaidCodeMap renderCount mermaid_config
       render_calls console].

Section PassProperties.

Variable mermaid_render : MermaidConfig → string → string → RenderResult.

(** The effect of one iteration of the refresh loop. *)
Lemma rerender_diagram_spec diagram code index st :
  let st' := rerender_diagram mermaid_render diagram code index st in
  let id := render_id (renderCount st) index in
  mermaidCodeMap st' = mermaidCodeMap st
  ∧ renderCount st' = renderCount st
  ∧ mermaid_config st' = mermaid_config st
  ∧ body st' = body st
  ∧ classList st' = classList st
  ∧ attributes st' = attributes st
  ∧ next_element st' = next_element st
  ∧ dataset_theme st' = dataset_theme st
  ∧ prefers_dark st' = prefers_dark st
  ∧ render_calls st'
    = render_calls st ++ [mkCall (mermaid_config st) id code]
  ∧ innerHTML st'
    = <[diagram := displayed (mermaid_render (mermaid_config st) id code)]>
        (innerHTML st).
Proof.
  unfold rerender_diagram, call_render.
  destruct (mermaid_render _ _ _); simpl; repeat split.
Qed.

Lemma refresh_loop_rerender_all diagrams index st :
  refresh_loop mermaid_render diagrams index st
  = rerender_all mermaid_render (refreshable (mermaidCodeMap st) diagrams) index st.
Proof.
  revert index st. induction diagrams as [|d rest IH]; intros index st; simpl.
  - done.
  - destruct (mermaidCodeMap st !! d) as [code|]; [|apply IH].
    destruct (decide (code = "")); [apply IH|]. simpl.
    rewrite IH.
    by destruct (rerender_diagram_spec d code index st) as (-> & _).
Qed.

Lemma refresh_calls_cons cfg epoch index item items :
  refresh_calls cfg epoch index (item :: items)
  = mkCall cfg (render_id epoch index) item.2
    :: refresh_calls cfg epoch (S index) items.
Proof.
  unfold refresh_calls. rewrite imap_cons. f_equal.
  - by rewrite Nat.add_0_r.
  - apply imap_ext. intros k x _. simpl. do 2 f_equal. lia.
Qed.

Lemma rerender_all_calls items index st :
  render_calls (rerender_all mermaid_render items index st)
  = render_calls st
    ++ refresh_calls (mermaid_config st) (renderCount st) index items.
Proof.
  revert index st. induction items as [|[d code] rest IH]; intros index st.
  - simpl. by rewrite app_nil_r.
  - simpl. rewrite IH, refresh_calls_cons.
    destruct (rerender_diagram_spec d code index st)
      as (_ & -> & -> & _ & _ & _ & _ & _ & _ & -> & _).
    by rewrite <- app_assoc.
Qed.

Lemma rerender_all_innerHTML_other items index st e :
  e ∉ items.*1 →
  innerHTML (rerender_all mermaid_render items index st) !! e = innerHTML st !! e.
Proof.
  revert index st. induction items as [|[d code] rest IH]; intros index st Hin.
  - done.
  - simpl in *. apply not_elem_of_cons in Hin as [Hne Hin].
    rewrite IH by done.
    destruct (rerender_diagram_spec d code index st)
      as (_ & _ & _ & _ & _ & _ & _ & _ & _ & _ & ->).
    by rewrite lookup_insert_ne.
Qed.

(** The markup a rendered diagram ends with is the outcome of its own render
    call, whatever the outcomes of the others. *)
Lemma rerender_all_innerHTML_at items index st k d code :
  items !! k = Some (d, code) →
  d ∉ (drop (S k) items).*1 →
  innerHTML (rerender_all mermaid_render items index st) !! d
  = Some (displayed (mermaid_render (mermaid_config st)
                       (render_id (renderCount st) (index + k)) code)).
Proof.
  revert index st k.
  induction items as [|[d' code'] rest IH]; intros index st k Hk Hlast.
  - done.
  - destruct (rerender_diagram_spec d' code' index st)
      as (_ & Hrc & Hcfg & _ & _ & _ & _ & _ & _ & _ & Hhtml).
    destruct k as [|k]; simpl in *.
    + injection Hk as -> ->. rewrite drop_0 in Hlast.
      rewrite rerender_all_innerHTML_other by done.
      rewrite Hhtml, lookup_insert_eq. by rewrite Nat.add_0_r.
    + rewrite (IH (S index) _ k Hk Hlast), Hrc, Hcfg.
      do 4 f_equal. lia.
Qed.

Lemma rerender_all_frame items index st :
  let st' := rerender_all mermaid_render items index st in
  mermaidCodeMap st' = mermaidCodeMap st
  ∧ renderCount st' = renderCount st
  ∧ mermaid_config st' = mermaid_config st
  ∧ body st' = body st
  ∧ classList st' = classList st
  ∧ attributes st' = attributes st
  ∧ next_element st' = next_element st
  ∧ dataset_theme st' = dataset_theme st
  ∧ prefers_dark st' = prefers_dark st.
Proof.
  revert index st. induction items as [|[d code] rest IH]; intros index st.
  - repeat split.
  - specialize (IH (S index) (rerender_diagram mermaid_render d code index st)).
    destruct (rerender_diagram_spec d code index st)
      as (E1 & E2 & E3 & E4 & E5 & E6 & E7 & E8 & E9 & _).
    simpl in *. rewrite E1, E2, E3, E4, E5, E6, E7, E8, E9 in IH. exact IH.
Qed.

(** *** The discovery loop *)

(** The effect of one iteration of the discovery loop; the container is the
    element [next_element st]. *)
Lemma render_block_spec pre code index st :
  let st' := render_block mermaid_render pre code index st in
  let id := render_id (renderCount st) index in
  let container := next_element st in
  mermaidCodeMap st' = <[container := code]> (mermaidCodeMap st)
  ∧ renderCount st' = renderCount st
  ∧ mermaid_config st' = mermaid_config st
  ∧ next_element st' = S container
  ∧ dataset_theme st' = dataset_theme st
  ∧ prefers_dark st' = prefers_dark st
  ∧ classList st' = <[container := ["mermaid"]]> (classList st)
  ∧ attributes st'
    = <[(container, "data-mermaid-index") := String_of_nat index]>
        (attributes st)
  ∧ render_calls st'
    = render_calls st ++ [mkCall (mermaid_config st) id code]
  ∧ innerHTML st'
    = <[container := displayed (mermaid_render (mermaid_config st) id code)]>
        (innerHTML st).
Proof.
  unfold render_block, discover_block, place_block, replaceWith, call_render,
    createElement. simpl.
  destruct (mermaid_render _ _ _); simpl;
    match goal with |- context [decide ?P] => destruct (decide P) end;
    simpl; repeat split.
Qed.

Lemma discovery_loop_render_blocks codeBlocks index st :
  discovery_loop mermaid_render codeBlocks index st
  = render_blocks mermaid_render (discoverable codeBlocks) index st.
Proof.
  revert index st.
  induction codeBlocks as [|cb rest IH]; intros index st; simpl.
  - done.
  - destruct (parentElement cb) as [pre|]; simpl; apply IH.
Qed.

Lemma render_blocks_frame items index st :
  let st' := render_blocks mermaid_render items index st in
  renderCount st' = renderCount st
  ∧ mermaid_config st' = mermaid_config st
  ∧ dataset_theme st' = dataset_theme st
  ∧ prefers_dark st' = prefers_dark st
  ∧ next_element st' = next_element st + length items.
Proof.
  revert index st. induction items as [|[pre code] rest IH]; intros index st.
  - simpl. repeat split. lia.
  - specialize (IH (S index) (render_block mermaid_render pre code index st)).
    destruct (render_block_spec pre code index st)
      as (_ & E2 & E3 & E4 & E5 & E6 & _).
    simpl in *. rewrite E2, E3, E4, E5, E6 in IH.
    destruct IH as (? & ? & ? & ? & ->). repeat split; try done. lia.
Qed.

Lemma render_blocks_calls items index st :
  render_calls (render_blocks mermaid_render items index st)
  = render_calls st
    ++ refresh_calls (mermaid_config st) (renderCount st) index items.
Proof.
  revert index st. induction items as [|[pre code] rest IH]; intros index st.
  - simpl. by rewrite app_nil_r.
  - simpl. rewrite IH, refresh_calls_cons.
    destruct (render_block_spec pre code index st)
      as (_ & -> & -> & _ & _ & _ & _ & _ & -> & _).
    by rewrite <- app_assoc.
Qed.

(** Elements that existed before the loop keep their registry entry, their
    markup and their classes. *)
Lemma render_blocks_lookup_old items index st e :
  e < next_element st →
  mermaidCodeMap (render_blocks mermaid_render items index st) !! e = mermaidCodeMap st !! e
  ∧ innerHTML (render_blocks mermaid_render items index st) !! e = innerHTML st !! e
  ∧ classList (render_blocks mermaid_render items index st) !! e = classList st !! e.
Proof.
  revert index st. induction items as [|[pre code] rest IH]; intros index st He.
  - done.
  - simpl.
    destruct (render_block_spec pre code index st)
      as (Hreg & _ & _ & Hnext & _ & _ & Hcls & _ & _ & Hhtml).
    destruct (IH (S index) (render_block mermaid_render pre code index st))
      as (-> & -> & ->); [simpl in *; lia|].
    rewrite Hreg, Hhtml, Hcls, !lookup_insert_ne by lia. done.
Qed.

(** The [k]-th container is registered with the source of the [k]-th block,
    and ends with the outcome of its own render call. *)
Lemma render_blocks_lookup_new items index st k pre code :
  items !! k = Some (pre, code) →
  mermaidCodeMap (render_blocks mermaid_render items index st) !! (next_element st + k)
  = Some code
  ∧ innerHTML (render_blocks mermaid_render items index st) !! (next_element st + k)
    = Some (displayed (mermaid_render (mermaid_config st)
                         (render_id (renderCount st) (index + k)) code))
  ∧ classList (render_blocks mermaid_render items index st) !! (next_element st + k)
    = Some ["mermaid"].
Proof.
  revert index st k.
  induction items as [|[pre' code'] rest IH]; intros index st k Hk.
  - done.
  - destruct (render_block_spec pre' code' index st)
      as (Hreg & Hrc & Hcfg & Hnext & _ & _ & Hcls & _ & _ & Hhtml).
    simpl in Hreg, Hrc, Hcfg, Hnext, Hcls, Hhtml.
    destruct k as [|k]; simpl in *.
    + injection Hk as -> ->. rewrite !Nat.add_0_r.
      destruct (render_blocks_lookup_old rest (S index)
        (render_block mermaid_render pre code index st) (next_element st))
        as (-> & -> & ->); [lia|].
      by rewrite Hreg, Hhtml, Hcls, !lookup_insert_eq.
    + destruct (IH (S index) (render_block mermaid_render pre' code' index st)
                  k Hk) as (E1 & E2 & E3).
      rewrite Hnext, Hrc, Hcfg in *.
      replace (next_element st + S k) with (S (next_element st) + k) by lia.
      replace (index + S k) with (S index + k) by lia. done.
Qed.

(** Each new container is a new key of the registry. *)
Lemma render_blocks_size items index st :
  (∀ e, is_Some (mermaidCodeMap st !! e) → e < next_element st) →
  size (mermaidCodeMap (render_blocks mermaid_render items index st))
  = size (mermaidCodeMap st) + length items
  ∧ ∀ e, is_Some (mermaidCodeMap (render_blocks mermaid_render items index st) !! e) →
         e < next_element st + length items.
Proof.
  revert index st.
  induction items as [|[pre code] rest IH]; intros index st Hfresh.
  - simpl. split; [lia|]. intros e He. apply Hfresh in He. lia.
  - destruct (render_block_spec pre code index st)
      as (Hreg & _ & _ & Hnext & _).
    simpl in Hreg, Hnext.
    destruct (IH (S index) (render_block mermaid_render pre code index st))
      as [Hsize Hbound].
    { intros e. rewrite Hreg, Hnext, lookup_insert_is_Some.
      intros [<- | [_ He]]; [lia|]. apply Hfresh in He. lia. }
    simpl. rewrite Hsize, Hreg, Hnext in *. split.
    + rewrite map_size_insert_None; [lia|].
      apply eq_None_not_Some. intros He. apply Hfresh in He. lia.
    + intros e He. apply Hbound in He. lia.
Qed.

Lemma source_text_default cb : source_text cb = default "" (textContent cb).
Proof.
  unfold source_text. destruct (textContent cb) as [t|]; simpl; [|done].
  by destruct (decide (t = "")) as [->|].
Qed.

Lemma discoverable_elem_of codeBlocks k pre code :
  discoverable codeBlocks !! k = Some (pre, code) →
  ∃ cb, cb ∈ codeBlocks ∧ parentElement cb = Some pre ∧ code = source_text cb.
Proof.
  intros Hk. apply list_elem_of_lookup_2 in Hk.
  unfold discoverable in Hk. apply list_elem_of_omap in Hk as (cb & Hin & Hcb).
  exists cb. destruct (parentElement cb) as [p|]; [|done].
  injection Hcb as -> ->. done.
Qed.

Lemma discoverable_all_valid codeBlocks :
  (∀ cb, cb ∈ codeBlocks → is_Some (parentElement cb)) →
  length (discoverable codeBlocks) = length codeBlocks
  ∧ ∀ k cb, codeBlocks !! k = Some cb →
      ∃ pre, discoverable codeBlocks !! k = Some (pre, source_text cb).
Proof.
  induction codeBlocks as [|cb0 rest IH]; intros Hvalid.
  - done.
  - destruct (Hvalid cb0) as [pre0 Hpre0]; [apply list_elem_of_here|].
    destruct IH as [IHlen IHk].
    { intros cb Hin. apply Hvalid. by apply list_elem_of_further. }
    assert (discoverable (cb0 :: rest)
            = (pre0, source_text cb0) :: discoverable rest) as ->.
    { unfold discoverable. simpl. by rewrite Hpre0. }
    split.
    + simpl. by rewrite IHlen.
    + intros [|k] cb Hk; simpl in *.
      * injection Hk as ->. by exists pre0.
      * by apply IHk.
Qed.

Lemma renderMermaidDiagrams_unfold codeBlocks st :
  renderMermaidDiagrams mermaid_render codeBlocks st
  = let st1 := initMermaidWithTheme (current_theme st) st in
    let st2 := render_blocks mermaid_render (discoverable codeBlocks) 0 st1 in
    set_renderCount (S (renderCount st2)) st2.
Proof.
  unfold renderMermaidDiagrams. by rewrite discovery_loop_render_blocks.
Qed.

(** C1.  When every code block of the query result has a parent, the
    discovery pass adds one registry entry for each of them, so a registry
    that was empty holds exactly as many entries as there are blocks; the
    [k]-th container created is marked with the class [mermaid], and looking
    it up in the registry gives the text content of the [k]-th block.  The
    second hypothesis says that the registry knows existing elements only, so
    that a created element is a new key. *)
Theorem discovery_registers_every_block (codeBlocks : list CodeBlock)
    (st : State) :
  (∀ cb, cb ∈ codeBlocks → is_Some (parentElement cb)) →
  (∀ e, is_Some (mermaidCodeMap st !! e) → e < next_element st) →
  let st' := renderMermaidDiagrams mermaid_render codeBlocks st in
  size (mermaidCodeMap st') = size (mermaidCodeMap st) + length codeBlocks
  ∧ (mermaidCodeMap st = ∅ → size (mermaidCodeMap st') = length codeBlocks)
  ∧ (∀ k cb, codeBlocks !! k = Some cb →
       classList st' !! (next_element st + k) = Some ["mermaid"]
       ∧ mermaidCodeMap st' !! (next_element st + k)
         = Some (default "" (textContent cb))).
Proof.
  intros Hvalid Hfresh. rewrite renderMermaidDiagrams_unfold. simpl.
  destruct (discoverable_all_valid codeBlocks Hvalid) as [Hlen Hk].
  assert (Hsize : size (mermaidCodeMap
                    (render_blocks mermaid_render (discoverable codeBlocks) 0
                       (initMermaidWithTheme (current_theme st) st)))
                  = size (mermaidCodeMap st) + length codeBlocks).
  { destruct (render_blocks_size (discoverable codeBlocks) 0
      (initMermaidWithTheme (current_theme st) st) Hfresh) as [-> _].
    simpl. by rewrite Hlen. }
  split; [exact Hsize|]. split.
  - intros Hempty. rewrite Hsize, Hempty, map_size_empty. done.
  - intros k cb Hcb. destruct (Hk k cb Hcb) as [pre Hd].
    destruct (render_blocks_lookup_new (discoverable codeBlocks) 0
      (initMermaidWithTheme (current_theme st) st) k pre _ Hd)
      as (E1 & _ & E3).
    simpl in E1, E3. by rewrite E1, E3, source_text_default.
Qed.

(** C7, as amended.  The source registered for the [k]-th container of a
    discovery pass is the text content of its code block as it is, the empty
    string when that text is empty or null; it is non-empty exactly when the
    block has a non-empty text. *)
Theorem registered_source_is_block_text (codeBlocks : list CodeBlock)
    (st : State) (k : nat) (pre : Element) (code : string) :
  discoverable codeBlocks !! k = Some (pre, code) →
  let st' := renderMermaidDiagrams mermaid_render codeBlocks st in
  mermaidCodeMap st' !! (next_element st + k) = Some code
  ∧ ∃ cb, cb ∈ codeBlocks
      ∧ parentElement cb = Some pre
      ∧ code = default "" (textContent cb)
      ∧ (code ≠ "" ↔ ∃ t, textContent cb = Some t ∧ t ≠ "").
Proof.
  intros Hd. rewrite renderMermaidDiagrams_unfold. simpl. split.
  - by destruct (render_blocks_lookup_new (discoverable codeBlocks) 0
      (initMermaidWithTheme (current_theme st) st) k pre code Hd) as (E1 & _).
  - destruct (discoverable_elem_of _ _ _ _ Hd) as (cb & Hin & Hpre & ->).
    exists cb. rewrite source_text_default. repeat split; try done.
    + destruct (textContent cb) as [t|]; simpl; [|done].
      intros Ht. by exists t.
    + intros (t & -> & Ht). done.
Qed.

Lemma reRenderMermaidDiagrams_unfold st :
  reRenderMermaidDiagrams mermaid_render st
  = let st1 := initMermaidWithTheme (current_theme st) st in
    match querySelectorAll_mermaid st with
    | [] => st1
    | _ :: _ =>
        let st2 := rerender_all mermaid_render
          (refreshable (mermaidCodeMap st) (querySelectorAll_mermaid st)) 0 st1 in
        set_renderCount (S (renderCount st2)) st2
    end.
Proof.
  unfold reRenderMermaidDiagrams.
  change (querySelectorAll_mermaid (initMermaidWithTheme (current_theme st) st))
    with (querySelectorAll_mermaid st).
  destruct (querySelectorAll_mermaid st) as [|d rest]; [done|].
  by rewrite refresh_loop_rerender_all.
Qed.

(** C10.  A refresh pass that finds no element of class [mermaid] returns
    after configuring the engine and leaves [renderCount] as it was; a
    refresh pass that finds one or more adds one to it; a discovery pass adds
    one to it for every query result, the empty one included. *)
Theorem epoch_increment_skipped_only_by_empty_refresh (st : State) :
  (querySelectorAll_mermaid st = []
   ∧ reRenderMermaidDiagrams mermaid_render st
     = initMermaidWithTheme (current_theme st) st
   ∧ renderCount (reRenderMermaidDiagrams mermaid_render st) = renderCount st
   ∨ querySelectorAll_mermaid st ≠ []
     ∧ renderCount (reRenderMermaidDiagrams mermaid_render st)
       = S (renderCount st))
  ∧ (∀ codeBlocks,
       renderCount (renderMermaidDiagrams mermaid_render codeBlocks st)
       = S (renderCount st))
  ∧ renderCount (renderMermaidDiagrams mermaid_render [] st)
    = S (renderCount st).
Proof.
  assert (Hdisc : ∀ codeBlocks,
    renderCount (renderMermaidDiagrams mermaid_render codeBlocks st)
    = S (renderCount st)).
  { intros codeBlocks. rewrite renderMermaidDiagrams_unfold. simpl.
    by destruct (render_blocks_frame (discoverable codeBlocks) 0
      (initMermaidWithTheme (current_theme st) st)) as (-> & _). }
  split; [|split; [exact Hdisc | apply Hdisc]].
  rewrite reRenderMermaidDiagrams_unfold.
  destruct (querySelectorAll_mermaid st) as [|d rest] eqn:Hq.
  - left. done.
  - right. split; [done|]. cbv zeta.
    past_increment.
    by destruct (rerender_all_frame
      (refreshable (mermaidCodeMap st) (d :: rest)) 0
      (initMermaidWithTheme (current_theme st) st)) as (_ & -> & _).
Qed.

Lemma refreshable_elem_of registry diagrams d code :
  (d, code) ∈ refreshable registry diagrams →
  d ∈ diagrams ∧ registry !! d = Some code ∧ code ≠ "".
Proof.
  unfold refreshable. intros Hin.
  apply list_elem_of_omap in Hin as (d' & Hin & Hd).
  destruct (registry !! d') as [c|] eqn:Hc; [|done].
  destruct (decide (c = "")); [done|]. injection Hd as -> ->. done.
Qed.

(** C6.  A refresh pass leaves the registry exactly as it was, creates no
    element, and changes neither the place, the classes nor the attributes of
    any element, nor the theme attribute; the only elements whose markup it
    changes are elements of class [mermaid] of the document that the registry
    already maps to a non-empty source, and every source it sends to the
    engine is one the registry already held.  (What it changes besides the
    markup is what every pass changes: the engine configuration, the log of
    calls and of errors, and the counter.) *)
Theorem refresh_pass_discovers_nothing (st : State) :
  let st' := reRenderMermaidDiagrams mermaid_render st in
  mermaidCodeMap st' = mermaidCodeMap st
  ∧ next_element st' = next_element st
  ∧ body st' = body st
  ∧ classList st' = classList st
  ∧ attributes st' = attributes st
  ∧ dataset_theme st' = dataset_theme st
  ∧ (∀ e, innerHTML st' !! e ≠ innerHTML st !! e →
       e ∈ querySelectorAll_mermaid st
       ∧ ∃ code, mermaidCodeMap st !! e = Some code ∧ code ≠ "")
  ∧ (∀ call, call ∈ drop (length (render_calls st)) (render_calls st') →
       ∃ e, e ∈ querySelectorAll_mermaid st
            ∧ mermaidCodeMap st !! e = Some (call_code call)).
Proof.
  cbv zeta. rewrite reRenderMermaidDiagrams_unfold. cbv zeta.
  destruct (querySelectorAll_mermaid st) as [|d rest] eqn:Hq.
  - simpl. repeat split; try done.
    intros call. rewrite drop_all. by intros ?%elem_of_nil.
  - rewrite <- Hq.
    set (items := refreshable (mermaidCodeMap st) (querySelectorAll_mermaid st)).
    set (st1 := initMermaidWithTheme (current_theme st) st).
    destruct (rerender_all_frame items 0 st1)
      as (E1 & _ & _ & E4 & E5 & E6 & E7 & E8 & _).
    cbv zeta. past_increment.
    do 6 (split; [done|]). split.
    + intros e He.
      destruct (decide (e ∈ items.*1)) as [Hin|Hout].
      * apply list_elem_of_fmap in Hin as ([d' code] & -> & Hin).
        apply refreshable_elem_of in Hin as (? & ? & ?).
        split; [done|]. by exists code.
      * by rewrite (rerender_all_innerHTML_other items 0 st1 e Hout) in He.
    + intros call. rewrite rerender_all_calls.
      change (render_calls st1) with (render_calls st).
      rewrite drop_app_length. unfold refresh_calls.
      intros Hin. apply list_elem_of_lookup in Hin as [k Hk].
      apply list_lookup_imap_Some in Hk as ([d' code] & Hk & ->).
      apply list_elem_of_lookup_2, refreshable_elem_of in Hk as (? & ? & _).
      by exists d'.
Qed.

(** *** Whole refresh passes *)

Lemma querySelectorAll_mermaid_ext st st' :
  body st' = body st → classList st' = classList st →
  querySelectorAll_mermaid st' = querySelectorAll_mermaid st.
Proof.
  intros Hb Hc. unfold querySelectorAll_mermaid. rewrite Hb.
  apply list_filter_iff. intros e. unfold has_class. by rewrite Hc.
Qed.

Lemma reRenderMermaidDiagrams_frame st :
  let st' := reRenderMermaidDiagrams mermaid_render st in
  mermaidCodeMap st' = mermaidCodeMap st
  ∧ body st' = body st
  ∧ classList st' = classList st
  ∧ dataset_theme st' = dataset_theme st
  ∧ prefers_dark st' = prefers_dark st
  ∧ mermaid_config st' = config_for (current_theme st).
Proof.
  cbv zeta. rewrite reRenderMermaidDiagrams_unfold. cbv zeta.
  destruct (querySelectorAll_mermaid st) as [|d rest]; [done|].
  destruct (rerender_all_frame (refreshable (mermaidCodeMap st) (d :: rest)) 0
    (initMermaidWithTheme (current_theme st) st))
    as (E1 & _ & E3 & E4 & E5 & _ & _ & E8 & E9).
  done.
Qed.

Lemma refreshed_reRenderMermaidDiagrams st :
  refreshed (reRenderMermaidDiagrams mermaid_render st) = refreshed st.
Proof.
  destruct (reRenderMermaidDiagrams_frame st) as (E1 & E2 & E3 & _).
  unfold refreshed. rewrite E1. f_equal. by apply querySelectorAll_mermaid_ext.
Qed.

Lemma reRenderMermaidDiagrams_innerHTML_other st e :
  e ∉ (refreshed st).*1 →
  innerHTML (reRenderMermaidDiagrams mermaid_render st) !! e
  = innerHTML st !! e.
Proof.
  intros He. rewrite reRenderMermaidDiagrams_unfold. cbv zeta.
  destruct (querySelectorAll_mermaid st) as [|d rest] eqn:Hq; [done|].
  rewrite <- Hq.
  past_increment.
  by rewrite rerender_all_innerHTML_other.
Qed.

(** A rendered diagram ends a refresh pass with the outcome of its own
    render call: made under the configuration of the current theme, with the
    identifier built from the epoch and its rank among the rendered
    diagrams. *)
Lemma reRenderMermaidDiagrams_innerHTML_at st k d code :
  refreshed st !! k = Some (d, code) →
  d ∉ (drop (S k) (refreshed st)).*1 →
  innerHTML (reRenderMermaidDiagrams mermaid_render st) !! d
  = Some (displayed (mermaid_render (config_for (current_theme st))
                       (render_id (renderCount st) k) code)).
Proof.
  intros Hk Hlast. rewrite reRenderMermaidDiagrams_unfold. cbv zeta.
  destruct (querySelectorAll_mermaid st) as [|d0 rest] eqn:Hq.
  - unfold refreshed in Hk. by rewrite Hq in Hk.
  - rewrite <- Hq.
    past_increment.
    by rewrite (rerender_all_innerHTML_at _ 0 _ k d code Hk Hlast).
Qed.

Lemma refreshable_fst_sublist registry diagrams :
  (refreshable registry diagrams).*1 `sublist_of` diagrams.
Proof.
  unfold refreshable. induction diagrams as [|d rest IH]; simpl; [done|].
  destruct (registry !! d) as [code|]; [|by apply sublist_cons].
  destruct (decide (code = "")); [by apply sublist_cons|].
  simpl. by apply sublist_skip.
Qed.

Lemma refreshed_NoDup st : NoDup (body st) → NoDup (refreshed st).*1.
Proof.
  intros Hnd. eapply sublist_NoDup; [|apply refreshable_fst_sublist].
  by apply NoDup_filter.
Qed.

Lemma NoDup_fst_not_later (items : list (Element * string)) k d code :
  NoDup items.*1 → items !! k = Some (d, code) →
  d ∉ (drop (S k) items).*1.
Proof.
  intros Hnd Hk. rewrite <- (take_drop_middle items k (d, code) Hk) in Hnd.
  rewrite fmap_app, fmap_cons in Hnd.
  apply NoDup_app in Hnd as (_ & _ & Hnd).
  by apply NoDup_cons in Hnd as [? _].
Qed.

Lemma last_occurrence (items : list (Element * string)) d :
  d ∈ items.*1 →
  ∃ k code, items !! k = Some (d, code) ∧ d ∉ (drop (S k) items).*1.
Proof.
  induction items as [|[d' code'] rest IH]; simpl.
  - by intros ?%elem_of_nil.
  - intros Hin. destruct (decide (d ∈ rest.*1)) as [Hrest|Hrest].
    + destruct (IH Hrest) as (k & code & Hk & Hlast).
      by exists (S k), code.
    + apply elem_of_cons in Hin as [-> | ?]; [|done].
      exists 0, code'. by rewrite drop_0.
Qed.

(** C2.  In a discovery pass and in a refresh pass alike, every diagram of
    the pass gets the outcome of its own render call: the returned markup
    when the engine resolves, and [<pre>Mermaid Error: ...</pre>] around the
    engine's error text when it throws; this holds for each diagram whatever
    the engine does on the others, and the engine is called once for every
    diagram of the pass. *)
Theorem render_failure_is_local (st : State) :
  (∀ codeBlocks k pre code,
     discoverable codeBlocks !! k = Some (pre, code) →
     let st' := renderMermaidDiagrams mermaid_render codeBlocks st in
     innerHTML st' !! (next_element st + k)
     = Some match mermaid_render (config_for (current_theme st))
                    (render_id (renderCount st) k) code with
            | Resolved svg => svg
            | Rejected error => "<pre>Mermaid Error: " +:+ error +:+ "</pre>"
            end
     ∧ length (render_calls st')
       = length (render_calls st) + length (discoverable codeBlocks))
  ∧ (∀ k d code,
       NoDup (body st) →
       refreshed st !! k = Some (d, code) →
       let st' := reRenderMermaidDiagrams mermaid_render st in
       innerHTML st' !! d
       = Some match mermaid_render (config_for (current_theme st))
                      (render_id (renderCount st) k) code with
              | Resolved svg => svg
              | Rejected error => "<pre>Mermaid Error: " +:+ error +:+ "</pre>"
              end
       ∧ length (render_calls st')
         = length (render_calls st) + length (refreshed st)).
Proof.
  split.
  - intros codeBlocks k pre code Hk. rewrite renderMermaidDiagrams_unfold.
    cbv zeta.
    past_increment.
    split.
    + destruct (render_blocks_lookup_new (discoverable codeBlocks) 0
        (initMermaidWithTheme (current_theme st) st) k pre code Hk)
        as (_ & E & _).
      exact E.
    + rewrite render_blocks_calls, length_app. unfold refresh_calls.
      by rewrite length_imap.
  - intros k d code Hnd Hk. cbv zeta. split.
    + rewrite (reRenderMermaidDiagrams_innerHTML_at st k d code Hk); [done|].
      apply (NoDup_fst_not_later _ k d code); [|done]. by apply refreshed_NoDup.
    + rewrite reRenderMermaidDiagrams_unfold. cbv zeta.
      destruct (querySelectorAll_mermaid st) as [|d0 rest] eqn:Hq.
      * unfold refreshed in Hk. by rewrite Hq in Hk.
      * rewrite <- Hq.
        past_increment.
        rewrite rerender_all_calls, length_app. unfold refresh_calls.
        by rewrite length_imap.
Qed.

(** C8.  After two refresh passes in a row, with nothing changed in between,
    an element either has the same markup after both (it is not a rendered
    diagram), or shows after each pass the outcome of rendering its
    registered source under the configuration of the same theme, the two
    calls differing in the identifier only; when the engine's result does not
    depend on the identifier the markup is the same after both passes. *)
Theorem refresh_twice_same_markup_modulo_id (st : State) (e : Element) :
  let s1 := reRenderMermaidDiagrams mermaid_render st in
  let s2 := reRenderMermaidDiagrams mermaid_render s1 in
  (innerHTML s2 !! e = innerHTML s1 !! e
   ∨ ∃ code id1 id2,
       mermaidCodeMap st !! e = Some code
       ∧ innerHTML s1 !! e
         = Some (displayed (mermaid_render (config_for (current_theme st))
                              id1 code))
       ∧ innerHTML s2 !! e
         = Some (displayed (mermaid_render (config_for (current_theme st))
                              id2 code)))
  ∧ ((∀ cfg id1 id2 code,
        mermaid_render cfg id1 code = mermaid_render cfg id2 code) →
     innerHTML s2 !! e = innerHTML s1 !! e).
Proof.
  cbv zeta.
  set (s1 := reRenderMermaidDiagrams mermaid_render st).
  assert (Hitems : refreshed s1 = refreshed st)
    by apply refreshed_reRenderMermaidDiagrams.
  destruct (reRenderMermaidDiagrams_frame st) as (_ & _ & _ & Ht & Hp & _).
  fold s1 in Ht, Hp.
  assert (Htheme : current_theme s1 = current_theme st).
  { unfold current_theme. by rewrite Ht, Hp. }
  destruct (decide (e ∈ (refreshed st).*1)) as [Hin|Hout].
  - destruct (last_occurrence _ _ Hin) as (k & code & Hk & Hlast).
    pose proof (reRenderMermaidDiagrams_innerHTML_at st k e code Hk Hlast)
      as H1. fold s1 in H1.
    rewrite <- Hitems in Hk, Hlast.
    pose proof (reRenderMermaidDiagrams_innerHTML_at s1 k e code Hk Hlast)
      as H2. rewrite Htheme in H2.
    split.
    + right. exists code, (render_id (renderCount st) k),
        (render_id (renderCount s1) k).
      split; [|done]. rewrite Hitems in Hk.
      by apply list_elem_of_lookup_2, refreshable_elem_of in Hk as (_ & ? & _).
    + intros Hid. rewrite H1, H2. do 2 f_equal. apply Hid.
  - assert (innerHTML (reRenderMermaidDiagrams mermaid_render s1) !! e
            = innerHTML s1 !! e) as H2.
    { apply reRenderMermaidDiagrams_innerHTML_other. by rewrite Hitems. }
    split; [by left | done].
Qed.

(** *** Passes in turn *)

Lemma refresh_calls_ids cfg epoch items :
  call_id <$> refresh_calls cfg epoch 0 items
  = render_id epoch <$> seq 0 (length items).
Proof.
  unfold refresh_calls. rewrite fmap_imap.
  rewrite (imap_ext _ (λ k _, render_id epoch k)) by done.
  by rewrite imap_seq_0.
Qed.

(** One pass: the calls it adds carry the current epoch and the ranks
    0, 1, 2, ...; the epoch is one more afterwards if any call was made, and
    never less. *)
Lemma take_turn_calls st t :
  ∃ n calls,
    render_calls (take_turn mermaid_render st t) = render_calls st ++ calls
    ∧ call_id <$> calls = render_id (renderCount st) <$> seq 0 n
    ∧ renderCount st ≤ renderCount (take_turn mermaid_render st t)
    ∧ (0 < n → renderCount (take_turn mermaid_render st t) = S (renderCount st)).
Proof.
  destruct t as [codeBlocks| |value]; unfold take_turn.
  - exists (length (discoverable codeBlocks)),
      (refresh_calls (config_for (current_theme st)) (renderCount st) 0
         (discoverable codeBlocks)).
    rewrite renderMermaidDiagrams_unfold. cbv zeta.
    past_increment.
    rewrite render_blocks_calls, refresh_calls_ids.
    destruct (render_blocks_frame (discoverable codeBlocks) 0
      (initMermaidWithTheme (current_theme st) st)) as (-> & _).
    simpl. repeat split; try done. lia.
  - rewrite reRenderMermaidDiagrams_unfold. cbv zeta.
    destruct (querySelectorAll_mermaid st) as [|d rest] eqn:Hq.
    + exists 0, []. simpl. rewrite app_nil_r. repeat split; [lia|lia].
    + rewrite <- Hq. fold (refreshed st).
      exists (length (refreshed st)),
        (refresh_calls (config_for (current_theme st)) (renderCount st) 0
           (refreshed st)).
      past_increment.
      rewrite rerender_all_calls, refresh_calls_ids.
      destruct (rerender_all_frame (refreshed st) 0
        (initMermaidWithTheme (current_theme st) st)) as (_ & -> & _).
      simpl. repeat split; try done. lia.
  - exists 0, []. simpl. rewrite app_nil_r. repeat split; [lia|lia].
Qed.

(** Any number of passes in turn: the calls they add are numbered by pairs of
    epoch and rank that are pairwise distinct, with epochs between the first
    and the last value of the counter. *)
Lemma take_turns_calls turns st :
  ∃ (pairs : list (nat * nat)) calls,
    render_calls (take_turns mermaid_render turns st) = render_calls st ++ calls
    ∧ call_id <$> calls = (λ p, render_id p.1 p.2) <$> pairs
    ∧ NoDup pairs
    ∧ (∀ p, p ∈ pairs →
         renderCount st ≤ p.1 < renderCount (take_turns mermaid_render turns st))
    ∧ renderCount st ≤ renderCount (take_turns mermaid_render turns st).
Proof.
  revert st. induction turns as [|t turns IH]; intros st.
  - exists [], []. simpl. rewrite app_nil_r.
    split; [done|]. split; [done|]. split; [apply NoDup_nil_2|].
    split; [by intros p ?%elem_of_nil | done].
  - destruct (take_turn_calls st t) as (n & calls1 & Hc1 & Hid1 & Hle1 & Hinc).
    destruct (IH (take_turn mermaid_render st t))
      as (pairs2 & calls2 & Hc2 & Hid2 & Hnd2 & Hb2 & Hle2).
    change (take_turns mermaid_render (t :: turns) st)
      with (take_turns mermaid_render turns (take_turn mermaid_render st t)).
    exists (((λ k, (renderCount st, k)) <$> seq 0 n) ++ pairs2),
      (calls1 ++ calls2).
    split; [by rewrite Hc2, Hc1, <- app_assoc|].
    split.
    { rewrite !fmap_app, Hid1, Hid2, <- list_fmap_compose. done. }
    split.
    { apply NoDup_app. split; [|split; [|done]].
      - apply NoDup_fmap_2; [|apply NoDup_seq]. by intros ?? [= ->].
      - intros p Hp Hp2.
        apply list_elem_of_fmap in Hp as (k & -> & Hk).
        apply elem_of_seq in Hk. apply Hb2 in Hp2. simpl in Hp2.
        rewrite Hinc in Hp2 by lia. lia. }
    split; [|lia].
    intros p Hp. apply elem_of_app in Hp as [Hp|Hp].
    + apply list_elem_of_fmap in Hp as (k & -> & Hk).
      apply elem_of_seq in Hk. simpl. rewrite Hinc in Hle2 by lia. lia.
    + apply Hb2 in Hp. lia.
Qed.

(** C4, as amended.  [renderCount] never decreases.  A discovery pass adds
    one to it at its end; a refresh pass adds one at its end, except that it
    returns early and leaves the counter alone when it finds no element of
    class [mermaid].  The identifiers of a pass are [mermaid-<epoch>-<index>]
    with the counter as epoch and 0, 1, 2, ... as index, one for each diagram
    rendered.  When passes run one after the other, each to its end, the
    identifiers of all their calls are pairwise distinct. *)
Theorem identifiers_distinct_for_passes_in_turn (st : State)
    (turns : list Turn) :
  let st' := take_turns mermaid_render turns st in
  renderCount st ≤ renderCount st'
  ∧ NoDup (ids_since (length (render_calls st)) st')
  ∧ (∀ codeBlocks,
       let s := renderMermaidDiagrams mermaid_render codeBlocks st in
       renderCount s = S (renderCount st)
       ∧ ids_since (length (render_calls st)) s
         = render_id (renderCount st)
           <$> seq 0 (length (discoverable codeBlocks)))
  ∧ (let s := reRenderMermaidDiagrams mermaid_render st in
     renderCount s
     = match querySelectorAll_mermaid st with
       | [] => renderCount st
       | _ :: _ => S (renderCount st)
       end
     ∧ ids_since (length (render_calls st)) s
       = render_id (renderCount st) <$> seq 0 (length (refreshed st))).
Proof.
  cbv zeta. split; [|split; [|split]].
  - by destruct (take_turns_calls turns st) as (? & ? & _ & _ & _ & _ & ?).
  - destruct (take_turns_calls turns st)
      as (pairs & calls & Hc & Hid & Hnd & _).
    unfold ids_since. rewrite Hc, drop_app_length, Hid.
    by apply (NoDup_fmap_2 _).
  - intros codeBlocks. unfold ids_since.
    rewrite renderMermaidDiagrams_unfold. cbv zeta.
    past_increment.
    rewrite render_blocks_calls.
    change (render_calls (initMermaidWithTheme _ st)) with (render_calls st).
    rewrite drop_app_length, refresh_calls_ids.
    by destruct (render_blocks_frame (discoverable codeBlocks) 0
      (initMermaidWithTheme (current_theme st) st)) as (-> & _).
  - unfold ids_since, refreshed.
    rewrite reRenderMermaidDiagrams_unfold. cbv zeta.
    destruct (querySelectorAll_mermaid st) as [|d rest] eqn:Hq.
    + simpl. by rewrite drop_all.
    + past_increment.
      rewrite rerender_all_calls.
      change (render_calls (initMermaidWithTheme _ st)) with (render_calls st).
      rewrite drop_app_length, refresh_calls_ids.
      by destruct (rerender_all_frame
        (refreshable (mermaidCodeMap st) (d :: rest)) 0
        (initMermaidWithTheme (current_theme st) st)) as (_ & -> & _).
Qed.

End PassProperties.






(** ** Passes that overlap *)

Section InterleavingProperties.

Variable mermaid_render : MermaidConfig → string → string → RenderResult.

(** Going on to the next [await] writes no markup. *)
Lemma refresh_advance_innerHTML diagrams index st :
  innerHTML (refresh_advance mermaid_render diagrams index st).1
  = innerHTML st.
Proof.
  revert index st. induction diagrams as [|d rest IH]; intros index st; simpl.
  - done.
  - destruct (mermaidCodeMap st !! d) as [code|]; [|apply IH].
    destruct (decide (code = "")); [apply IH | done].
Qed.

Lemma run_cons ev events pg :
  run mermaid_render (ev :: events) pg
  = run mermaid_render events (step mermaid_render pg ev).
Proof. done. Qed.

(** With a single pass in flight, the page after its render call settles is
    the page in which that pass has gone on to its next [await] or to its
    end. *)
Lemma step_settled_alone st c n :
  step mermaid_render (mkPage st [c] n) (Settled 0)
  = alone (resume mermaid_render c st) n.
Proof. unfold step, alone. simpl. by destruct (resume _ _ _).2. Qed.

(** A refresh loop left alone until it ends does what the loop run from
    start to end does; it is resumed once for every diagram it renders. *)
Lemma refresh_alone diagrams index st n :
  run mermaid_render
    (replicate (length (refreshable (mermaidCodeMap st) diagrams)) (Settled 0))
    (alone (refresh_advance mermaid_render diagrams index st) n)
  = mkPage (let st' := refresh_loop mermaid_render diagrams index st in
            set_renderCount (S (renderCount st')) st') [] n.
Proof.
  revert index st. induction diagrams as [|d rest IH]; intros index st.
  - done.
  - unfold refreshable in *. simpl.
    destruct (mermaidCodeMap st !! d) as [code|]; [|apply IH].
    destruct (decide (code = "")); [apply IH|].
    specialize (IH (S index) (rerender_diagram mermaid_render d code index st)).
    destruct (rerender_diagram_spec mermaid_render d code index st)
      as (Hreg & _).
    rewrite Hreg in IH.
    cbn [length replicate]. rewrite run_cons.
    unfold call_render, alone at 1. cbn [fst snd].
    change (option_list (Some ?c)) with [c].
    rewrite step_settled_alone. exact IH.
Qed.

(** The same for the discovery loop. *)
Lemma discovery_alone codeBlocks index st n :
  run mermaid_render
    (replicate (length (discoverable codeBlocks)) (Settled 0))
    (alone (discovery_advance mermaid_render codeBlocks index st) n)
  = mkPage (let st' := discovery_loop mermaid_render codeBlocks index st in
            set_renderCount (S (renderCount st')) st') [] n.
Proof.
  revert index st. induction codeBlocks as [|cb rest IH]; intros index st.
  - done.
  - unfold discoverable in *. simpl.
    destruct (parentElement cb) as [pre|]; [|apply IH].
    cbn [length replicate]. rewrite run_cons.
    unfold discover_block, createElement, call_render, alone at 1.
    cbn [fst snd]. change (option_list (Some ?c)) with [c].
    rewrite step_settled_alone.
    apply (IH (S index)).
Qed.

(** The page load alone: [initMermaid], left to its end, runs the discovery
    pass from start to end and leaves one observer more. *)
Lemma initMermaid_alone codeBlocks st n :
  run mermaid_render
    (ContentLoaded codeBlocks
     :: replicate (length (discoverable codeBlocks)) (Settled 0))
    (mkPage st [] n)
  = mkPage (renderMermaidDiagrams mermaid_render codeBlocks st) [] (S n).
Proof.
  rewrite run_cons.
  apply (discovery_alone codeBlocks 0
           (initMermaidWithTheme (current_theme st) st) (S n)).
Qed.

(** Every change the browser records for the theme attribute reaches the
    observer, and is one the callback acts on. *)
Lemma theme_batch_delivered current values :
  theme_batch current values ≠ [] →
  existsb is_theme_record (delivered (theme_batch current values)) = true.
Proof.
  revert current. induction values as [|v values IH]; intros current Hne.
  - done.
  - destruct current as [c|], v as [w|]; simpl in *; try done.
    by apply IH.
Qed.

(** With one observer, theme changes made in one synchronous run, of which
    the browser records at least one, start one refresh pass, in the state
    the last of them leaves. *)
Lemma step_ThemeSet st others values :
  theme_batch (dataset_theme st) values ≠ [] →
  step mermaid_render (mkPage st others 1) (ThemeSet values)
  = spawn (start_refresh mermaid_render)
      (mkPage (foldl (λ st v, set_dataset_theme v st) st values) others 1).
Proof.
  intros Hne. unfold step. cbn [store in_flight observers].
  change (Nat.iter 1 ?f ?x) with (f x).
  by rewrite observer_callback_spec, theme_batch_delivered.
Qed.

Lemma discovery_advance_innerHTML codeBlocks index st :
  innerHTML (discovery_advance mermaid_render codeBlocks index st).1
  = innerHTML st.
Proof.
  revert index st.
  induction codeBlocks as [|cb rest IH]; intros index st; simpl.
  - done.
  - destruct (parentElement cb); [done | apply IH].
Qed.

Lemma settle_innerHTML label el r st :
  innerHTML (settle label el r st) = <[el := displayed r]> (innerHTML st).
Proof. by destruct r. Qed.

Lemma resume_innerHTML c st :
  innerHTML (resume mermaid_render c st).1
  = <[awaited_element c := displayed (awaited_result c)]> (innerHTML st).
Proof.
  destruct c as [r pre container index rest | r diagram index rest]; simpl.
  - rewrite discovery_advance_innerHTML. unfold place_block, replaceWith.
    destruct (decide _); simpl; apply settle_innerHTML.
  - rewrite refresh_advance_innerHTML. apply settle_innerHTML.
Qed.

(** C3, as amended.  Nothing is discarded: whenever the render call awaited
    by a suspended pass settles, that pass writes the result into its
    element, whatever other passes are in flight or were requested since.
    When theme changes of which the browser records at least one are made
    while no pass is in flight, and the refresh pass they start runs to its
    end before anything else happens, the page ends with no pass in flight,
    in the state of the pass run from start to end; every diagram that pass
    renders (the elements of class [mermaid] of the document that the
    registry maps to a non-empty source) shows the outcome of that pass,
    rendered under the configuration of the theme in force when it was
    requested; and every other element, a container registered with an empty
    source among them, keeps the markup it had. *)
Theorem results_written_on_arrival_latest_shown_without_overlap :
  (∀ pg k c,
     in_flight pg !! k = Some c →
     innerHTML (store (step mermaid_render pg (Settled k)))
       !! awaited_element c
     = Some (displayed (awaited_result c)))
  ∧ (∀ st values,
       theme_batch (dataset_theme st) values ≠ [] →
       let st0 := foldl (λ st v, set_dataset_theme v st) st values in
       let pg := run mermaid_render
                   (ThemeSet values
                    :: replicate (length (refreshed st0)) (Settled 0))
                   (mkPage st [] 1) in
       pg = mkPage (reRenderMermaidDiagrams mermaid_render st0) [] 1
       ∧ (∀ k d code,
            NoDup (body st0) →
            refreshed st0 !! k = Some (d, code) →
            innerHTML (store pg) !! d
            = Some (displayed
                      (mermaid_render (config_for (current_theme st0))
                         (render_id (renderCount st0) k) code)))
       ∧ (∀ e, e ∉ (refreshed st0).*1 →
               innerHTML (store pg) !! e = innerHTML st !! e)).
Proof.
  split.
  - intros pg k c Hk. unfold step. rewrite Hk.
    pose proof (resume_innerHTML c (store pg)) as Hw.
    destruct (resume mermaid_render c (store pg)) as [st' [c'|]]; simpl in *;
      by rewrite Hw, lookup_insert_eq.
  - intros st values Hne. cbv zeta.
    set (st0 := foldl (λ st v, set_dataset_theme v st) st values).
    assert (Hrun : run mermaid_render
              (ThemeSet values
               :: replicate (length (refreshed st0)) (Settled 0))
              (mkPage st [] 1)
            = mkPage (reRenderMermaidDiagrams mermaid_render st0) [] 1).
    { rewrite run_cons, step_ThemeSet by done. fold st0.
      unfold spawn, start_refresh, reRenderMermaidDiagrams, refreshed.
      cbn [store in_flight observers app].
      change (querySelectorAll_mermaid
                (initMermaidWithTheme (current_theme st0) st0))
        with (querySelectorAll_mermaid st0).
      destruct (querySelectorAll_mermaid st0) as [|d rest] eqn:Hq; [done|].
      apply (refresh_alone (d :: rest) 0
               (initMermaidWithTheme (current_theme st0) st0)). }
    split; [exact Hrun|]. split.
    + intros k d code Hnd Hk. rewrite Hrun. simpl.
      apply reRenderMermaidDiagrams_innerHTML_at; [done|].
      apply (NoDup_fst_not_later _ k d code); [|done]. by apply refreshed_NoDup.
    + intros e He. rewrite Hrun. cbn [store].
      rewrite reRenderMermaidDiagrams_innerHTML_other by done.
      unfold st0. clear. revert st.
      induction values as [|v values IH]; intros st; [done|].
      simpl. by rewrite IH.
Qed.

End InterleavingProperties.


(** * The passes on concrete pages *)

(** One block, no theme attribute, a host that prefers light: the container
    takes the place of the wrapper, shows markup rendered with the light
    theme, and is registered with the source of the block. *)
Example one_block_light :
  body one_diagram = [100]
  ∧ innerHTML one_diagram !! 100
    = Some "<svg id=mermaid-0-0 class=default>graph TD; A-->B;</svg>"
  ∧ mermaidCodeMap one_diagram !! 100 = Some "graph TD; A-->B;"
  ∧ size (mermaidCodeMap one_diagram) = 1
  ∧ attributes one_diagram !! (100, "data-mermaid-index") = Some "0".
Proof. vm_compute. done. Qed.

(** The theme attribute goes from absent to "dark": the diagram is rendered
    again, with the dark theme, and nothing else is registered. *)
Example one_block_dark :
  let st := reRenderMermaidDiagrams demo_render
              (set_dataset_theme (Some "dark") one_diagram) in
  innerHTML st !! 100
  = Some "<svg id=mermaid-1-0 class=dark>graph TD; A-->B;</svg>"
  ∧ mermaidCodeMap st = mermaidCodeMap one_diagram
  ∧ renderCount st = 2.
Proof. vm_compute. done. Qed.

(** Three diagrams, the engine throws on the second. *)
Example second_of_three_fails :
  innerHTML three_diagrams !! 100
  = Some "<svg id=mermaid-0-0 class=default>graph TD; A-->B;</svg>"
  ∧ innerHTML three_diagrams !! 101
    = Some "<pre>Mermaid Error: Error: Parse error on line 1</pre>"
  ∧ innerHTML three_diagrams !! 102
    = Some "<svg id=mermaid-0-2 class=default>graph LR; C-->D;</svg>"
  ∧ body three_diagrams = [100; 101; 102].
Proof. vm_compute. done. Qed.

(** The page with one block: both hypotheses hold, and the container is
    element 100. *)
Lemma discovery_registers_every_block_witness :
  let st' := renderMermaidDiagrams demo_render one_block (loaded_page [1]) in
  size (mermaidCodeMap st') = 1
  ∧ classList st' !! (100 + 0) = Some ["mermaid"]
  ∧ mermaidCodeMap st' !! (100 + 0)
    = Some (default "" (Some "graph TD; A-->B;")).
Proof.
  destruct (discovery_registers_every_block demo_render one_block
              (loaded_page [1])) as (_ & Hsize & Hlookup).
  - intros cb Hin. apply list_elem_of_singleton in Hin. subst cb.
    simpl. by eexists.
  - intros e He. simpl in He. rewrite lookup_empty in He. by destruct He.
  - split; [apply Hsize; reflexivity|].
    apply (Hlookup 0 (mkCodeBlock (Some 1) (Some "graph TD; A-->B;"))).
    reflexivity.
Defined.

Lemma registered_source_is_block_text_witness :
  let st' := renderMermaidDiagrams demo_render empty_block (loaded_page [1]) in
  mermaidCodeMap st' !! (next_element (loaded_page [1]) + 0) = Some ""
  ∧ ∃ cb, cb ∈ empty_block
      ∧ parentElement cb = Some 1
      ∧ "" = default "" (textContent cb)
      ∧ ("" ≠ "" ↔ ∃ t, textContent cb = Some t ∧ t ≠ "").
Proof.
  apply (registered_source_is_block_text demo_render empty_block
           (loaded_page [1]) 0 1 "").
  reflexivity.
Defined.

(** C7 as first stated says that no registry entry has an empty source.  A
    code block whose text is empty is registered with the empty string. *)
Lemma empty_block_registered_with_empty_source :
  let st' := renderMermaidDiagrams demo_render empty_block (loaded_page [1]) in
  mermaidCodeMap st' !! 100 = Some ""
  ∧ size (mermaidCodeMap st') = 1
  ∧ call_code <$> render_calls st' = [""].
Proof. vm_compute. done. Qed.

Lemma render_failure_is_local_witness :
  (let st' := renderMermaidDiagrams demo_render three_blocks
                (loaded_page [1; 2; 3]) in
   innerHTML st' !! (next_element (loaded_page [1; 2; 3]) + 1)
   = Some match demo_render (config_for (current_theme (loaded_page [1; 2; 3])))
                  (render_id (renderCount (loaded_page [1; 2; 3])) 1)
                  "graph TD; A-->" with
          | Resolved svg => svg
          | Rejected error => "<pre>Mermaid Error: " +:+ error +:+ "</pre>"
          end
   ∧ length (render_calls st')
     = length (render_calls (loaded_page [1; 2; 3]))
       + length (discoverable three_blocks))
  ∧ (let st' := reRenderMermaidDiagrams demo_render three_diagrams in
     innerHTML st' !! 102
     = Some match demo_render (config_for (current_theme three_diagrams))
                    (render_id (renderCount three_diagrams) 2)
                    "graph LR; C-->D;" with
            | Resolved svg => svg
            | Rejected error => "<pre>Mermaid Error: " +:+ error +:+ "</pre>"
            end
     ∧ length (render_calls st')
       = length (render_calls three_diagrams)
         + length (refreshed three_diagrams)).
Proof.
  split.
  - apply (proj1 (render_failure_is_local demo_render (loaded_page [1; 2; 3]))
             three_blocks 1 2 "graph TD; A-->").
    reflexivity.
  - apply (proj2 (render_failure_is_local demo_render three_diagrams)
             2 102 "graph LR; C-->D;").
    + apply (bool_decide_unpack _). by vm_compute.
    + vm_compute. reflexivity.
Defined.

(** ** Two theme changes while a pass is suspended *)

Example page_load_runs_discovery :
  run demo_render page_load before_load = mkPage one_diagram [] 1.
Proof. vm_compute. done. Qed.

(** C3 as first stated says that the late result of a pass that has been
    superseded is discarded.  Both refresh passes are in flight after the
    two changes.  When the call of the older pass settles first, its
    dark-theme markup is written into the container although the theme is
    light by then; when the call of the newer pass settles first and the
    older one after it, both passes have ended and the container is left
    with the dark-theme markup of the older pass. *)
Lemma superseded_pass_still_writes :
  length (in_flight (run demo_render (page_load ++ two_flips) before_load)) = 2
  ∧ (let pg := run demo_render (page_load ++ two_flips ++ [Settled 0])
                 before_load in
     length (in_flight pg) = 1
     ∧ current_theme (store pg) = light
     ∧ innerHTML (store pg) !! 100
       = Some "<svg id=mermaid-1-0 class=dark>graph TD; A-->B;</svg>")
  ∧ (let pg := run demo_render
                 (page_load ++ two_flips ++ [Settled 1; Settled 0])
                 before_load in
     in_flight pg = []
     ∧ current_theme (store pg) = light
     ∧ innerHTML (store pg) !! 100
       = Some "<svg id=mermaid-1-0 class=dark>graph TD; A-->B;</svg>").
Proof. vm_compute. done. Qed.

(** One theme change on the page with one diagram, and the pass left to
    end. *)
Lemma results_written_on_arrival_latest_shown_without_overlap_witness :
  let st0 := set_dataset_theme (Some "dark") one_diagram in
  let pg := run demo_render
              (ThemeSet [Some "dark"]
               :: replicate (length (refreshed st0)) (Settled 0))
              (mkPage one_diagram [] 1) in
  pg = mkPage (reRenderMermaidDiagrams demo_render st0) [] 1
  ∧ innerHTML (store pg) !! 100
    = Some (displayed
              (demo_render (config_for (current_theme st0))
                 (render_id (renderCount st0) 0) "graph TD; A-->B;")).
Proof.
  destruct (proj2 (results_written_on_arrival_latest_shown_without_overlap
                     demo_render) one_diagram [Some "dark"])
    as (Hrun & Hshown & _).
  - vm_compute. discriminate.
  - split; [exact Hrun|].
    apply (Hshown 0 100 "graph TD; A-->B;").
    + apply (bool_decide_unpack _). by vm_compute.
    + vm_compute. reflexivity.
Defined.

(** C4 as first stated says that every pass adds one to the counter and that
    no identifier is used twice.  A refresh pass on a page without any
    element of class [mermaid] leaves the counter at its value; and the two
    refresh passes that overlap above both read the counter before either
    has ended, so the engine receives the identifier [mermaid-1-0] twice. *)
Lemma epoch_kept_by_empty_refresh_and_identifier_reused :
  querySelectorAll_mermaid (loaded_page [1]) = []
  ∧ renderCount (reRenderMermaidDiagrams demo_render (loaded_page [1]))
    = renderCount (loaded_page [1])
  ∧ call_id <$> render_calls
      (store (run demo_render (page_load ++ two_flips) before_load))
    = ["mermaid-0-0"; "mermaid-1-0"; "mermaid-1-0"].
Proof. vm_compute. done. Qed.

(** Five theme changes in one synchronous run start a single pass. *)
Example five_flips_one_pass :
  length (in_flight
    (run demo_render
       (page_load
        ++ [ThemeSet [Some "dark"; Some "light"; Some "dark"; Some "light";
                      Some "dark"]])
       before_load)) = 1.
Proof. vm_compute. done. Qed.

(** * Further properties of the passes *)

(** X11.  The identifier is unambiguous: two identifiers are the same text
    exactly when they were built from the same epoch and the same index, so
    that, for instance, epoch 1 with index 11 and epoch 11 with index 1 never
    meet. *)
Theorem render_id_unambiguous (epoch index epoch' index' : nat) :
  render_id epoch index = render_id epoch' index'
  ↔ epoch = epoch' ∧ index = index'.
Proof.
  split.
  - apply render_id_inj.
  - by intros [-> ->].
Qed.

Section FurtherPassProperties.

Variable mermaid_render : MermaidConfig → string → string → RenderResult.

Lemma discoverable_cons cb codeBlocks :
  discoverable (cb :: codeBlocks)
  = match parentElement cb with
    | Some pre => (pre, source_text cb) :: discoverable codeBlocks
    | None => discoverable codeBlocks
    end.
Proof. unfold discoverable. simpl. by destruct (parentElement cb). Qed.

Lemma discoverable_filter codeBlocks :
  discoverable (filter (λ cb, is_Some (parentElement cb)) codeBlocks)
  = discoverable codeBlocks.
Proof.
  induction codeBlocks as [|cb rest IH]; [done|].
  rewrite filter_cons, (discoverable_cons cb rest).
  destruct (parentElement cb) as [pre|] eqn:Hp.
  - rewrite decide_True by (by eexists).
    by rewrite discoverable_cons, Hp, IH.
  - rewrite decide_False by (by intros [? ?]). exact IH.
Qed.

(** X2.  Code blocks without a parent are skipped without a trace: the
    discovery pass ends in the same state as on the query result with those
    blocks taken out, so they get no container, no registry entry and no
    render call, and they use up no index. *)
Theorem blocks_without_parent_leave_no_trace (codeBlocks : list CodeBlock)
    (st : State) :
  renderMermaidDiagrams mermaid_render codeBlocks st
  = renderMermaidDiagrams mermaid_render
      (filter (λ cb, is_Some (parentElement cb)) codeBlocks) st.
Proof.
  rewrite !renderMermaidDiagrams_unfold. by rewrite discoverable_filter.
Qed.

(** X1.  What the engine receives during a pass run from start to end: one
    call for each diagram of the pass, in the order of the query result,
    each with the source of its diagram and the identifier of its rank, and
    all of them under the configuration of the theme resolved when the pass
    started. *)
Theorem engine_receives_diagrams_in_order (st : State) :
  (∀ codeBlocks,
     drop (length (render_calls st))
       (render_calls (renderMermaidDiagrams mermaid_render codeBlocks st))
     = imap (λ k item, mkCall (config_for (current_theme st))
                         (render_id (renderCount st) k) item.2)
         (discoverable codeBlocks))
  ∧ drop (length (render_calls st))
      (render_calls (reRenderMermaidDiagrams mermaid_render st))
    = imap (λ k item, mkCall (config_for (current_theme st))
                        (render_id (renderCount st) k) item.2)
        (refreshed st).
Proof.
  split.
  - intros codeBlocks. rewrite renderMermaidDiagrams_unfold. cbv zeta.
    past_increment. rewrite render_blocks_calls.
    change (render_calls (initMermaidWithTheme _ st)) with (render_calls st).
    by rewrite drop_app_length.
  - rewrite reRenderMermaidDiagrams_unfold. cbv zeta. unfold refreshed.
    destruct (querySelectorAll_mermaid st) as [|d rest] eqn:Hq.
    + simpl. by rewrite drop_all.
    + past_increment. rewrite rerender_all_calls.
      change (render_calls (initMermaidWithTheme _ st)) with (render_calls st).
      by rewrite drop_app_length.
Qed.

(** X6.  A refresh pass leaves alone an element that the registry does not
    know, or knows with an empty source: its markup stays as it is.  When no
    element of class [mermaid] is known with a non-empty source, the pass
    calls the engine for nothing and changes no markup at all. *)
Theorem refresh_leaves_unknown_and_empty_alone (st : State) (e : Element) :
  mermaidCodeMap st !! e = None ∨ mermaidCodeMap st !! e = Some "" →
  innerHTML (reRenderMermaidDiagrams mermaid_render st) !! e
  = innerHTML st !! e
  ∧ (refreshed st = [] →
     render_calls (reRenderMermaidDiagrams mermaid_render st) = render_calls st
     ∧ innerHTML (reRenderMermaidDiagrams mermaid_render st) = innerHTML st).
Proof.
  intros He. split.
  - apply reRenderMermaidDiagrams_innerHTML_other.
    intros Hin. apply list_elem_of_fmap in Hin as ([d code] & -> & Hin).
    apply refreshable_elem_of in Hin as (_ & Hreg & Hne). simpl in He.
    destruct He as [He|He]; rewrite He in Hreg; [done|]. by injection Hreg as <-.
  - intros Hnone. rewrite reRenderMermaidDiagrams_unfold. cbv zeta.
    unfold refreshed in Hnone.
    destruct (querySelectorAll_mermaid st) as [|d rest] eqn:Hq; [done|].
    rewrite Hnone. done.
Qed.

(** *** Containers and the document *)

Lemma render_blocks_attributes_old items index st e name :
  e < next_element st →
  attributes (render_blocks mermaid_render items index st) !! (e, name)
  = attributes st !! (e, name).
Proof.
  revert index st. induction items as [|[pre code] rest IH]; intros index st He.
  - done.
  - simpl.
    destruct (render_block_spec mermaid_render pre code index st)
      as (_ & _ & _ & Hnext & _ & _ & _ & Hattr & _).
    simpl in Hnext, Hattr.
    rewrite IH by lia. rewrite Hattr, lookup_insert_ne; [done|].
    intros [= ?]. lia.
Qed.

Lemma render_blocks_attributes_new items index st k pre code :
  items !! k = Some (pre, code) →
  attributes (render_blocks mermaid_render items index st)
    !! (next_element st + k, "data-mermaid-index")
  = Some (String_of_nat (index + k)).
Proof.
  revert index st k.
  induction items as [|[pre' code'] rest IH]; intros index st k Hk.
  - done.
  - destruct (render_block_spec mermaid_render pre' code' index st)
      as (_ & _ & _ & Hnext & _ & _ & _ & Hattr & _).
    simpl in Hnext, Hattr.
    destruct k as [|k]; simpl in *.
    + rewrite render_blocks_attributes_old by lia.
      by rewrite Hattr, !Nat.add_0_r, lookup_insert_eq.
    + replace (next_element st + S k) with (S (next_element st) + k) by lia.
      replace (index + S k) with (S index + k) by lia.
      rewrite <- Hnext. by apply IH.
Qed.

(** X3.  The [k]-th container of a discovery pass carries its index: its
    attribute [data-mermaid-index] is the decimal text of [k], the same
    index as in the identifier of its render call, and two containers of the
    pass never carry the same text. *)
Theorem container_carries_its_index (codeBlocks : list CodeBlock) (st : State)
    (k : nat) (pre : Element) (code : string) :
  discoverable codeBlocks !! k = Some (pre, code) →
  let st' := renderMermaidDiagrams mermaid_render codeBlocks st in
  attributes st' !! (next_element st + k, "data-mermaid-index")
  = Some (String_of_nat k)
  ∧ call_id <$> render_calls st' !! (length (render_calls st) + k)
    = Some (render_id (renderCount st) k)
  ∧ ∀ k', attributes st' !! (next_element st + k', "data-mermaid-index")
          = Some (String_of_nat k) →
          is_Some (discoverable codeBlocks !! k') → k' = k.
Proof.
  intros Hk. rewrite renderMermaidDiagrams_unfold. cbv zeta. past_increment.
  set (st1 := initMermaidWithTheme (current_theme st) st).
  change (next_element st) with (next_element st1).
  split; [|split].
  - exact (render_blocks_attributes_new _ 0 st1 k pre code Hk).
  - rewrite render_blocks_calls.
    change (render_calls st1) with (render_calls st).
    rewrite lookup_app_r by lia.
    replace (length (render_calls st) + k - length (render_calls st))
      with k by lia.
    unfold refresh_calls. rewrite list_lookup_imap, Hk. done.
  - intros k' Hattr [[pre' code'] Hk'].
    rewrite (render_blocks_attributes_new _ 0 st1 k' pre' code' Hk') in Hattr.
    injection Hattr as Hattr. by apply String_of_nat_inj in Hattr.
Qed.

(** X4.  A discovery pass leaves alone every element that existed before it:
    its registry entry, its markup, its classes and its attributes are what
    they were, so running the pass again does not disturb the diagrams of an
    earlier run. *)
Theorem discovery_leaves_existing_elements_alone (codeBlocks : list CodeBlock)
    (st : State) (e : Element) :
  e < next_element st →
  let st' := renderMermaidDiagrams mermaid_render codeBlocks st in
  mermaidCodeMap st' !! e = mermaidCodeMap st !! e
  ∧ innerHTML st' !! e = innerHTML st !! e
  ∧ classList st' !! e = classList st !! e
  ∧ ∀ name, attributes st' !! (e, name) = attributes st !! (e, name).
Proof.
  intros He. rewrite renderMermaidDiagrams_unfold. cbv zeta. past_increment.
  set (st1 := initMermaidWithTheme (current_theme st) st).
  destruct (render_blocks_lookup_old mermaid_render (discoverable codeBlocks)
              0 st1 e He) as (E1 & E2 & E3).
  repeat split; try done.
  intros name. exact (render_blocks_attributes_old _ 0 st1 e name He).
Qed.

(** The console after one iteration of either loop. *)
Lemma rerender_diagram_console diagram code index st :
  console (rerender_diagram mermaid_render diagram code index st)
  = console st
    ++ failure_lines "Mermaid re-rendering error:" mermaid_render
         [mkCall (mermaid_config st) (render_id (renderCount st) index) code].
Proof.
  unfold rerender_diagram, call_render, failure_lines. simpl.
  destruct (mermaid_render _ _ _); simpl; [by rewrite app_nil_r | done].
Qed.

Lemma render_block_console pre code index st :
  console (render_block mermaid_render pre code index st)
  = console st
    ++ failure_lines "Mermaid rendering error:" mermaid_render
         [mkCall (mermaid_config st) (render_id (renderCount st) index) code].
Proof.
  unfold render_block, discover_block, place_block, replaceWith, call_render,
    createElement, failure_lines. simpl.
  destruct (mermaid_render _ _ _); simpl;
    match goal with |- context [decide ?P] => destruct (decide P) end;
    simpl; [by rewrite app_nil_r | by rewrite app_nil_r | done | done].
Qed.

Lemma failure_lines_app label calls1 calls2 :
  failure_lines label mermaid_render (calls1 ++ calls2)
  = failure_lines label mermaid_render calls1
    ++ failure_lines label mermaid_render calls2.
Proof. unfold failure_lines. apply omap_app. Qed.

Lemma rerender_all_console items index st :
  console (rerender_all mermaid_render items index st)
  = console st
    ++ failure_lines "Mermaid re-rendering error:" mermaid_render
         (refresh_calls (mermaid_config st) (renderCount st) index items).
Proof.
  revert index st. induction items as [|[d code] rest IH]; intros index st.
  - simpl. by rewrite app_nil_r.
  - cbn [rerender_all]. rewrite IH, refresh_calls_cons, rerender_diagram_console.
    destruct (rerender_diagram_spec mermaid_render d code index st)
      as (_ & -> & -> & _).
    rewrite <- app_assoc. f_equal.
    by rewrite <- failure_lines_app.
Qed.

Lemma render_blocks_console items index st :
  console (render_blocks mermaid_render items index st)
  = console st
    ++ failure_lines "Mermaid rendering error:" mermaid_render
         (refresh_calls (mermaid_config st) (renderCount st) index items).
Proof.
  revert index st. induction items as [|[pre code] rest IH]; intros index st.
  - simpl. by rewrite app_nil_r.
  - cbn [render_blocks]. rewrite IH, refresh_calls_cons, render_block_console.
    destruct (render_block_spec mermaid_render pre code index st)
      as (_ & -> & -> & _).
    rewrite <- app_assoc. f_equal.
    by rewrite <- failure_lines_app.
Qed.

(** X7.  A pass prints one line with [console.error] for each render call
    on which the engine throws, in the order of the calls, made of the label
    of the pass and the error text; it prints nothing for a call that
    resolves. *)
Theorem console_reports_each_failure (st : State) :
  (∀ codeBlocks,
     let st' := renderMermaidDiagrams mermaid_render codeBlocks st in
     console st'
     = console st
       ++ failure_lines "Mermaid rendering error:" mermaid_render
            (drop (length (render_calls st)) (render_calls st')))
  ∧ (let st' := reRenderMermaidDiagrams mermaid_render st in
     console st'
     = console st
       ++ failure_lines "Mermaid re-rendering error:" mermaid_render
            (drop (length (render_calls st)) (render_calls st'))).
Proof.
  split.
  - intros codeBlocks. cbv zeta. rewrite renderMermaidDiagrams_unfold.
    cbv zeta. past_increment.
    rewrite render_blocks_console, render_blocks_calls.
    change (render_calls (initMermaidWithTheme _ st)) with (render_calls st).
    by rewrite drop_app_length.
  - cbv zeta. rewrite reRenderMermaidDiagrams_unfold. cbv zeta.
    destruct (querySelectorAll_mermaid st) as [|d rest] eqn:Hq.
    + simpl. rewrite drop_all. unfold failure_lines. simpl.
      by rewrite app_nil_r.
    + past_increment. rewrite rerender_all_console, rerender_all_calls.
      change (render_calls (initMermaidWithTheme _ st)) with (render_calls st).
      by rewrite drop_app_length.
Qed.

(** *** A theme change after discovery *)

(** Reading a field of the state after the theme attribute was set. *)
Ltac past_theme_change :=
  cbn [set_dataset_theme set_body set_renderCount dataset_theme prefers_dark body
       classList attributes innerHTML next_element mermaidCodeMap renderCount
       mermaid_config render_calls console].

Lemma refreshable_elem_of_2 registry diagrams d code :
  d ∈ diagrams → registry !! d = Some code → code ≠ "" →
  (d, code) ∈ refreshable registry diagrams.
Proof.
  intros Hin Hreg Hne. unfold refreshable.
  apply list_elem_of_omap. exists d. split; [done|].
  rewrite Hreg. by rewrite decide_False.
Qed.

(** X8.  A theme change after discovery shows a diagram in the new theme.
    Take a code block with a parent and a source that is not empty, and its
    container, created by the discovery pass.  Whatever the document has
    become once that pass has ended, if the container is in it, then after a
    change of the theme attribute and a refresh pass the container shows the
    outcome of rendering the very source captured at discovery, under the
    configuration of the newly resolved theme, with an identifier of the next
    epoch. *)
Theorem theme_change_rerenders_discovered_diagram
    (codeBlocks : list CodeBlock) (st : State) (value : option string)
    (k : nat) (pre : Element) (code : string) (document : list Element) :
  discoverable codeBlocks !! k = Some (pre, code) →
  code ≠ "" →
  next_element st + k ∈ document →
  let s1 := renderMermaidDiagrams mermaid_render codeBlocks st in
  let s2 := reRenderMermaidDiagrams mermaid_render
              (set_dataset_theme value (set_body document s1)) in
  ∃ j,
    innerHTML s2 !! (next_element st + k)
    = Some (displayed
              (mermaid_render
                 (config_for (getCurrentTheme value (prefers_dark st)))
                 (render_id (S (renderCount st)) j) code)).
Proof.
  intros Hk Hne Hin. cbv zeta.
  set (s1 := renderMermaidDiagrams mermaid_render codeBlocks st).
  set (s1' := set_dataset_theme value (set_body document s1)).
  set (st1 := initMermaidWithTheme (current_theme st) st).
  assert (Hs1 : s1 = let st2 := render_blocks mermaid_render
                                  (discoverable codeBlocks) 0 st1 in
                     set_renderCount (S (renderCount st2)) st2)
    by apply renderMermaidDiagrams_unfold.
  cbv zeta in Hs1.
  destruct (render_blocks_lookup_new mermaid_render (discoverable codeBlocks)
              0 st1 k pre code Hk) as (Hreg & _ & Hcls).
  destruct (render_blocks_frame mermaid_render (discoverable codeBlocks) 0 st1)
    as (Hrc & _ & _ & Hpd & _).
  change (next_element st1) with (next_element st) in *.
  assert (Hreg' : mermaidCodeMap s1' !! (next_element st + k) = Some code)
    by (unfold s1'; rewrite Hs1; exact Hreg).
  assert (Hq : next_element st + k ∈ querySelectorAll_mermaid s1').
  { unfold querySelectorAll_mermaid. apply list_elem_of_filter. split.
    - unfold has_class, s1'. rewrite Hs1. past_theme_change.
      rewrite Hcls. simpl. apply list_elem_of_here.
    - exact Hin. }
  assert (Hin' : (next_element st + k, code) ∈ refreshed s1')
    by (by apply refreshable_elem_of_2).
  destruct (last_occurrence (refreshed s1') (next_element st + k))
    as (j & code' & Hj & Hlast).
  { apply list_elem_of_fmap. by exists (next_element st + k, code). }
  assert (code' = code) as ->.
  { apply list_elem_of_lookup_2, refreshable_elem_of in Hj as (_ & Hc & _).
    rewrite Hreg' in Hc. by injection Hc. }
  exists j.
  rewrite (reRenderMermaidDiagrams_innerHTML_at mermaid_render s1' j _ code
             Hj Hlast).
  do 3 f_equal.
  - unfold current_theme, s1'. rewrite Hs1. past_theme_change.
    by rewrite Hpd.
  - unfold s1'. rewrite Hs1. past_theme_change. by rewrite Hrc.
Qed.

End FurtherPassProperties.

(** ** Further properties of passes that overlap *)

Section FurtherInterleavingProperties.

Variable mermaid_render : MermaidConfig → string → string → RenderResult.

(** A property of the state that every piece of the passes keeps is kept by
    every event, and so by every sequence of events. *)
Lemma step_keeps (P : State → Prop) :
  (∀ codeBlocks st, P st → P (start_discovery mermaid_render codeBlocks st).1) →
  (∀ st, P st → P (start_refresh mermaid_render st).1) →
  (∀ c st, P st → P (resume mermaid_render c st).1) →
  (∀ v st, P st → P (set_dataset_theme v st)) →
  ∀ pg ev, P (store pg) → P (store (step mermaid_render pg ev)).
Proof.
  intros Hdisc Hrefresh Hresume Htheme pg ev HP.
  destruct ev as [codeBlocks|values|k]; unfold step.
  - by apply Hdisc.
  - assert (Hst : P (foldl (λ st v, set_dataset_theme v st) (store pg) values)).
    { revert HP. generalize (store pg).
      induction values as [|v values IH]; intros st HP; [done|].
      simpl. apply IH. by apply Htheme. }
    cbv zeta.
    set (pg0 := mkPage _ (in_flight pg) (observers pg)).
    assert (HP0 : P (store pg0)) by exact Hst.
    clearbody pg0. clear Hst.
    induction (observers pg) as [|n IH]; [done|].
    rewrite Nat.iter_succ, observer_callback_spec.
    destruct (existsb _ _); [|done]. by apply Hrefresh.
  - destruct (in_flight pg !! k) as [c|]; [|done].
    pose proof (Hresume c (store pg) HP) as H.
    by destruct (resume mermaid_render c (store pg)).2.
Qed.

Lemma run_keeps (P : State → Prop) :
  (∀ codeBlocks st, P st → P (start_discovery mermaid_render codeBlocks st).1) →
  (∀ st, P st → P (start_refresh mermaid_render st).1) →
  (∀ c st, P st → P (resume mermaid_render c st).1) →
  (∀ v st, P st → P (set_dataset_theme v st)) →
  ∀ events pg, P (store pg) → P (store (run mermaid_render events pg)).
Proof.
  intros Hdisc Hrefresh Hresume Htheme events.
  induction events as [|ev events IH]; intros pg HP; [done|].
  rewrite run_cons. apply IH. by apply step_keeps.
Qed.

(** What the two loops do to the registry, the allocator and the counter
    when they go on to their next [await]. *)
Lemma discovery_advance_keeps codeBlocks index st :
  let st' := (discovery_advance mermaid_render codeBlocks index st).1 in
  renderCount st ≤ renderCount st'
  ∧ (registry_fresh st →
     registry_fresh st' ∧ mermaidCodeMap st ⊆ mermaidCodeMap st').
Proof.
  revert index st.
  induction codeBlocks as [|cb rest IH]; intros index st; simpl.
  - split; [lia | done].
  - destruct (parentElement cb) as [pre|]; [|apply IH].
    simpl. split; [done|]. intros Hfresh. split.
    + intros e. simpl. rewrite lookup_insert_is_Some.
      intros [<- | [_ He]]; [lia|]. apply Hfresh in He. lia.
    + apply insert_subseteq. apply eq_None_not_Some.
      intros He. apply Hfresh in He. lia.
Qed.

Lemma refresh_advance_keeps diagrams index st :
  let st' := (refresh_advance mermaid_render diagrams index st).1 in
  renderCount st ≤ renderCount st'
  ∧ mermaidCodeMap st' = mermaidCodeMap st
  ∧ next_element st' = next_element st.
Proof.
  revert index st.
  induction diagrams as [|d rest IH]; intros index st; simpl.
  - repeat split. lia.
  - destruct (mermaidCodeMap st !! d) as [code|]; [|apply IH].
    destruct (decide (code = "")); [apply IH | done].
Qed.

Lemma place_block_keeps pre container r st :
  let st' := place_block pre container r st in
  renderCount st' = renderCount st
  ∧ mermaidCodeMap st' = mermaidCodeMap st
  ∧ next_element st' = next_element st.
Proof.
  unfold place_block, replaceWith.
  destruct r; simpl; destruct (decide _); done.
Qed.

Lemma settle_keeps label el r st :
  let st' := settle label el r st in
  renderCount st' = renderCount st
  ∧ mermaidCodeMap st' = mermaidCodeMap st
  ∧ next_element st' = next_element st.
Proof. by destruct r. Qed.

Lemma registry_fresh_ext st st' :
  mermaidCodeMap st' = mermaidCodeMap st →
  next_element st' = next_element st →
  registry_fresh st → registry_fresh st'.
Proof. unfold registry_fresh. intros -> ->. done. Qed.

(** X10.  [renderCount] never decreases, whatever happens on the page and
    however the passes overlap. *)
Theorem renderCount_never_decreases (events : list Event) (pg : Page) :
  renderCount (store pg)
  ≤ renderCount (store (run mermaid_render events pg)).
Proof.
  apply (run_keeps (λ st, renderCount (store pg) ≤ renderCount st)); [..|done].
  - intros codeBlocks st H. unfold start_discovery.
    destruct (discovery_advance_keeps codeBlocks 0
                (initMermaidWithTheme (current_theme st) st)) as [Hle _].
    cbv zeta in Hle.
    change (renderCount (initMermaidWithTheme _ ?s)) with (renderCount s) in Hle.
    lia.
  - intros st H. unfold start_refresh.
    change (querySelectorAll_mermaid
              (initMermaidWithTheme (current_theme st) st))
      with (querySelectorAll_mermaid st).
    destruct (querySelectorAll_mermaid st) as [|d rest]; [done|].
    destruct (refresh_advance_keeps (d :: rest) 0
                (initMermaidWithTheme (current_theme st) st)) as [Hle _].
    cbv zeta in Hle.
    change (renderCount (initMermaidWithTheme _ ?s)) with (renderCount s) in Hle.
    lia.
  - intros c st H.
    destruct c as [r pre container index rest | r diagram index rest];
      unfold resume.
    + destruct (discovery_advance_keeps rest (S index)
                  (place_block pre container r st)) as [Hle _].
      destruct (place_block_keeps pre container r st) as (Hrc & _).
      cbv zeta in Hle, Hrc. lia.
    + destruct (refresh_advance_keeps rest (S index)
                  (settle "Mermaid re-rendering error:" diagram r st))
        as [Hle _].
      destruct (settle_keeps "Mermaid re-rendering error:" diagram r st)
        as (Hrc & _).
      cbv zeta in Hle, Hrc. lia.
  - done.
Qed.

(** X9.  A registered source is never lost nor changed: when the registry
    knows existing elements only, every entry it holds is still there, with
    the same source, after any sequence of page loads, theme changes and
    settled render calls, however the passes overlap. *)
Theorem registry_entries_survive (events : list Event) (pg : Page)
    (e : Element) (code : string) :
  registry_fresh (store pg) →
  mermaidCodeMap (store pg) !! e = Some code →
  mermaidCodeMap (store (run mermaid_render events pg)) !! e = Some code.
Proof.
  intros Hfresh He.
  cut (registry_fresh (store (run mermaid_render events pg))
       ∧ mermaidCodeMap (store pg)
         ⊆ mermaidCodeMap (store (run mermaid_render events pg))).
  { intros [_ Hsub]. by eapply lookup_weaken. }
  apply (run_keeps (λ st, registry_fresh st
                          ∧ mermaidCodeMap (store pg) ⊆ mermaidCodeMap st));
    [..|done].
  - intros codeBlocks st [Hf Hs]. unfold start_discovery.
    destruct (discovery_advance_keeps codeBlocks 0
                (initMermaidWithTheme (current_theme st) st)) as [_ H].
    destruct (H Hf) as [Hf' Hs']. split; [done|]. by etrans.
  - intros st [Hf Hs]. unfold start_refresh.
    change (querySelectorAll_mermaid
              (initMermaidWithTheme (current_theme st) st))
      with (querySelectorAll_mermaid st).
    destruct (querySelectorAll_mermaid st) as [|d rest]; [done|].
    destruct (refresh_advance_keeps (d :: rest) 0
                (initMermaidWithTheme (current_theme st) st))
      as (_ & Hreg & Hnext).
    cbv zeta in Hreg, Hnext. split.
    + eapply registry_fresh_ext; [exact Hreg | exact Hnext | done].
    + by rewrite Hreg.
  - intros c st [Hf Hs].
    destruct c as [r pre container index rest | r diagram index rest];
      unfold resume.
    + destruct (place_block_keeps pre container r st) as (_ & Hreg & Hnext).
      cbv zeta in Hreg, Hnext.
      destruct (discovery_advance_keeps rest (S index)
                  (place_block pre container r st)) as [_ H].
      destruct H as [Hf' Hs'].
      { eapply registry_fresh_ext; [exact Hreg | exact Hnext | done]. }
      split; [done|]. rewrite Hreg in Hs'. by etrans.
    + destruct (settle_keeps "Mermaid re-rendering error:" diagram r st)
        as (_ & Hreg & Hnext).
      cbv zeta in Hreg, Hnext.
      destruct (refresh_advance_keeps rest (S index)
                  (settle "Mermaid re-rendering error:" diagram r st))
        as (_ & Hreg' & Hnext').
      cbv zeta in Hreg', Hnext'. split.
      * eapply registry_fresh_ext; [by rewrite Hreg' | by rewrite Hnext' | done].
      * by rewrite Hreg', Hreg.
  - done.
Qed.

Lemma run_app events1 events2 pg :
  run mermaid_render (events1 ++ events2) pg
  = run mermaid_render events2 (run mermaid_render events1 pg).
Proof. unfold run. apply foldl_app. Qed.

Lemma set_dataset_theme_last values v st :
  set_dataset_theme v (foldl (λ st v, set_dataset_theme v st) st values)
  = set_dataset_theme v st.
Proof.
  revert st. induction values as [|w values IH]; intros st; [done|].
  simpl. by rewrite IH.
Qed.

(** A refresh pass requested on a page with one observer and no pass in
    flight, and left alone until it ends. *)
Lemma refresh_request_alone st values :
  theme_batch (dataset_theme st) values ≠ [] →
  let st0 := foldl (λ st v, set_dataset_theme v st) st values in
  run mermaid_render
    (ThemeSet values :: replicate (length (refreshed st0)) (Settled 0))
    (mkPage st [] 1)
  = mkPage (reRenderMermaidDiagrams mermaid_render st0) [] 1.
Proof.
  intros Hne. cbv zeta.
  set (st0 := foldl (λ st v, set_dataset_theme v st) st values).
  rewrite run_cons, step_ThemeSet by done. fold st0.
  unfold spawn, start_refresh, reRenderMermaidDiagrams, refreshed.
  cbn [store in_flight observers app].
  change (querySelectorAll_mermaid
            (initMermaidWithTheme (current_theme st0) st0))
    with (querySelectorAll_mermaid st0).
  destruct (querySelectorAll_mermaid st0) as [|d rest] eqn:Hq; [done|].
  apply (refresh_alone mermaid_render (d :: rest) 0
           (initMermaidWithTheme (current_theme st0) st0)).
Qed.

Lemma renderMermaidDiagrams_dataset_theme codeBlocks st :
  dataset_theme (renderMermaidDiagrams mermaid_render codeBlocks st)
  = dataset_theme st.
Proof.
  rewrite renderMermaidDiagrams_unfold. cbv zeta. past_increment.
  by destruct (render_blocks_frame mermaid_render (discoverable codeBlocks) 0
                 (initMermaidWithTheme (current_theme st) st))
    as (_ & _ & -> & _).
Qed.

(** X12.  The life of a page without overlap: [initMermaid] on a page
    without observer, its discovery pass left to end (one settled call for
    each block with a parent), then theme changes of which the browser
    records at least one, and the refresh pass left to end.  The page ends
    with one observer, no pass in flight, and the state of the discovery
    pass followed by the theme changes and the refresh pass, each run from
    start to end. *)
Theorem page_life_without_overlap (codeBlocks : list CodeBlock) (st : State)
    (values : list (option string)) :
  theme_batch (dataset_theme st) values ≠ [] →
  let s1 := renderMermaidDiagrams mermaid_render codeBlocks st in
  let s2 := foldl (λ st v, set_dataset_theme v st) s1 values in
  run mermaid_render
    ((ContentLoaded codeBlocks
      :: replicate (length (discoverable codeBlocks)) (Settled 0))
     ++ ThemeSet values :: replicate (length (refreshed s2)) (Settled 0))
    (mkPage st [] 0)
  = mkPage (reRenderMermaidDiagrams mermaid_render s2) [] 1.
Proof.
  intros Hne. cbv zeta.
  rewrite run_app, initMermaid_alone.
  apply refresh_request_alone.
  by rewrite renderMermaidDiagrams_dataset_theme.
Qed.

Lemma iter_pointwise {A : Type} (n : nat) (f g : A → A) (a : A) :
  (∀ x, f x = g x) → Nat.iter n f a = Nat.iter n g a.
Proof.
  intros Hfg. induction n as [|n IH]; [done|].
  by rewrite !Nat.iter_succ, IH, Hfg.
Qed.

Lemma iter_same {A : Type} (n : nat) (a : A) : Nat.iter n (λ x, x) a = a.
Proof. induction n as [|n IH]; [done|]. by rewrite Nat.iter_succ. Qed.

(** When the browser records nothing, the attribute was absent and every
    change removed it. *)
Lemma theme_batch_nil current values :
  theme_batch current values = [] →
  values = [] ∨ (current = None ∧ ∀ w, w ∈ values → w = None).
Proof.
  revert current. induction values as [|v values IH]; intros current Hnil.
  - by left.
  - right. destruct current as [c|], v as [w|]; simpl in Hnil; try done.
    split; [done|]. intros w Hw.
    apply elem_of_cons in Hw as [->|Hw]; [done|].
    destruct (IH None Hnil) as [-> | [_ Hall]]; [by apply elem_of_nil in Hw|].
    by apply Hall.
Qed.

Lemma foldl_theme_absent st values :
  dataset_theme st = None → (∀ w, w ∈ values → w = None) →
  foldl (λ st v, set_dataset_theme v st) st values = st.
Proof.
  intros Habsent Hall. induction values as [|v values IH]; [done|].
  simpl. rewrite (Hall v) by apply list_elem_of_here.
  assert (set_dataset_theme None st = st) as ->.
  { destruct st. simpl in Habsent. by subst. }
  apply IH. intros w Hw. apply Hall. by apply list_elem_of_further.
Qed.

(** X13.  Theme changes made in one synchronous run count as one.  When the
    browser records at least one of them, the attribute is left with the last
    value and each observer starts exactly one refresh pass, in that state,
    however many changes were made and whatever the values in between.  When
    it records none (the attribute was absent and every change removed it),
    the page stays as it is and no pass starts. *)
Theorem theme_changes_in_one_run_coalesce (pg : Page)
    (values : list (option string)) (v : option string) :
  (theme_batch (dataset_theme (store pg)) (values ++ [v]) ≠ [] →
   step mermaid_render pg (ThemeSet (values ++ [v]))
   = Nat.iter (observers pg) (spawn (start_refresh mermaid_render))
       (mkPage (set_dataset_theme v (store pg)) (in_flight pg)
          (observers pg)))
  ∧ (theme_batch (dataset_theme (store pg)) (values ++ [v]) = [] →
     step mermaid_render pg (ThemeSet (values ++ [v])) = pg).
Proof.
  split.
  - intros Hne. unfold step. rewrite foldl_snoc, set_dataset_theme_last.
    apply iter_pointwise. intros pg'.
    by rewrite observer_callback_spec, theme_batch_delivered.
  - intros Hnil. unfold step. rewrite Hnil.
    destruct (theme_batch_nil _ _ Hnil) as [Hnone | [Habsent Hall]].
    { by destruct values. }
    rewrite foldl_theme_absent by done.
    rewrite (iter_pointwise _ _ (λ pg', pg')).
    + rewrite iter_same. by destruct pg.
    + intros pg'. by rewrite observer_callback_spec.
Qed.

(** The refresh loop goes on to the first diagram it renders, issues the
    call and suspends. *)
Lemma refresh_advance_first diagrams index st d code items :
  refreshable (mermaidCodeMap st) diagrams = (d, code) :: items →
  ∃ rest,
    refresh_advance mermaid_render diagrams index st
    = (set_render_calls
         (render_calls st
          ++ [mkCall (mermaid_config st) (render_id (renderCount st) index)
                code]) st,
       Some (AwaitRefresh
               (mermaid_render (mermaid_config st)
                  (render_id (renderCount st) index) code)
               d index rest)).
Proof.
  unfold refreshable.
  induction diagrams as [|d0 ds IH]; intros Hfirst; [done|].
  simpl in *.
  destruct (mermaidCodeMap st !! d0) as [c|]; [|by apply IH].
  destruct (decide (c = "")); [by apply IH|].
  simpl in Hfirst. injection Hfirst as -> -> _. by exists ds.
Qed.

Lemma start_refresh_first st d code items :
  refreshed st = (d, code) :: items →
  ∃ rest,
    start_refresh mermaid_render st
    = (set_render_calls
         (render_calls st
          ++ [mkCall (config_for (current_theme st))
                (render_id (renderCount st) 0) code])
         (initMermaidWithTheme (current_theme st) st),
       Some (AwaitRefresh
               (mermaid_render (config_for (current_theme st))
                  (render_id (renderCount st) 0) code)
               d 0 rest)).
Proof.
  intros Hfirst. unfold start_refresh, refreshed in *.
  change (querySelectorAll_mermaid
            (initMermaidWithTheme (current_theme st) st))
    with (querySelectorAll_mermaid st).
  destruct (querySelectorAll_mermaid st) as [|d0 ds] eqn:Hq; [done|].
  apply (refresh_advance_first (d0 :: ds) 0
           (initMermaidWithTheme (current_theme st) st) d code items Hfirst).
Qed.

(** X14.  Two refresh passes that overlap use the same identifier.  When a
    page has a diagram to render and a second refresh pass is called before
    the first render call of the first one has settled, both passes are
    suspended on a call that carries the identifier of the current epoch
    with index 0: the counter moves at the end of a pass only. *)
Theorem overlapping_refreshes_share_identifier (st : State) (d : Element)
    (code : string) (items : list (Element * string)) :
  refreshed st = (d, code) :: items →
  let p1 := start_refresh mermaid_render st in
  let p2 := start_refresh mermaid_render p1.1 in
  is_Some p1.2
  ∧ is_Some p2.2
  ∧ call_id <$> drop (length (render_calls st)) (render_calls p2.1)
    = [render_id (renderCount st) 0; render_id (renderCount st) 0].
Proof.
  intros Hfirst. cbv zeta.
  destruct (start_refresh_first st d code items Hfirst) as [rest1 ->].
  cbn [fst snd].
  set (s1 := set_render_calls _ _).
  assert (Hfirst1 : refreshed s1 = (d, code) :: items) by exact Hfirst.
  destruct (start_refresh_first s1 d code items Hfirst1) as [rest2 ->].
  cbn [fst snd]. split; [by eexists|]. split; [by eexists|].
  unfold s1. cbn [render_calls set_render_calls renderCount
                  initMermaidWithTheme set_mermaid_config].
  rewrite <- app_assoc, drop_app_length. done.
Qed.

(** X15.  The configuration is shared, not kept by the pass: when a
    suspended refresh pass is resumed and goes on to its next diagram, the
    call it makes carries the configuration and the epoch found in the state
    at that moment, whatever they were when the pass started. *)
Theorem resumed_pass_uses_current_configuration (r : RenderResult)
    (diagram : Element) (index : nat) (rest : list Element) (st : State)
    (d : Element) (code : string) (items : list (Element * string)) :
  refreshable (mermaidCodeMap st) rest = (d, code) :: items →
  let st' := (resume mermaid_render (AwaitRefresh r diagram index rest) st).1 in
  last (render_calls st')
  = Some (mkCall (mermaid_config st) (render_id (renderCount st) (S index))
            code)
  ∧ innerHTML st' !! diagram = Some (displayed r).
Proof.
  intros Hfirst. cbv zeta. unfold resume.
  set (s1 := settle "Mermaid re-rendering error:" diagram r st).
  destruct (settle_keeps "Mermaid re-rendering error:" diagram r st)
    as (Hrc & Hreg & _).
  fold s1 in Hrc, Hreg. cbv zeta in Hrc, Hreg.
  rewrite <- Hreg in Hfirst.
  destruct (refresh_advance_first rest (S index) s1 d code items Hfirst)
    as [rest' ->].
  cbn [fst render_calls set_render_calls innerHTML]. split.
  - assert (mermaid_config s1 = mermaid_config st) as ->
      by (unfold s1; by destruct r).
    by rewrite last_snoc, Hrc.
  - unfold s1. rewrite settle_innerHTML. apply lookup_insert_eq.
Qed.

Lemma registered_are_containers_ext st st' :
  mermaidCodeMap st' = mermaidCodeMap st →
  next_element st' = next_element st →
  classList st' = classList st →
  attributes st' = attributes st →
  registered_are_containers st → registered_are_containers st'.
Proof.
  unfold registered_are_containers, registry_fresh.
  intros -> -> -> ->. done.
Qed.

Lemma discovery_advance_containers codeBlocks index st :
  registered_are_containers st →
  registered_are_containers
    (discovery_advance mermaid_render codeBlocks index st).1.
Proof.
  revert index st.
  induction codeBlocks as [|cb rest IH]; intros index st Hinv; simpl.
  - done.
  - destruct (parentElement cb) as [pre|]; [|by apply IH].
    destruct Hinv as [Hfresh Hcont]. split.
    + intros e. simpl. rewrite lookup_insert_is_Some.
      intros [<- | [_ He]]; [lia|]. apply Hfresh in He. lia.
    + intros e. simpl. rewrite lookup_insert_is_Some.
      intros [<- | [Hne He]].
      * rewrite !lookup_insert_eq. split; [done | by eexists].
      * rewrite !lookup_insert_ne by (try done; by intros [= ?]).
        by apply Hcont.
Qed.

Lemma refresh_advance_containers diagrams index st :
  registered_are_containers st →
  registered_are_containers
    (refresh_advance mermaid_render diagrams index st).1.
Proof.
  revert index st.
  induction diagrams as [|d rest IH]; intros index st Hinv; simpl.
  - done.
  - destruct (mermaidCodeMap st !! d) as [code|]; [|by apply IH].
    destruct (decide (code = "")); [by apply IH | done].
Qed.

(** X16.  The registry holds containers only: when every registered
    element is a container of class [mermaid] with an index attribute (as on
    a page that has just loaded, where nothing is registered), this is still
    so after any sequence of page loads, theme changes and settled render
    calls, however the passes overlap. *)
Theorem registry_holds_containers_only (events : list Event) (pg : Page) :
  registered_are_containers (store pg) →
  registered_are_containers (store (run mermaid_render events pg)).
Proof.
  apply (run_keeps registered_are_containers).
  - intros codeBlocks st H. by apply discovery_advance_containers.
  - intros st H. unfold start_refresh.
    change (querySelectorAll_mermaid
              (initMermaidWithTheme (current_theme st) st))
      with (querySelectorAll_mermaid st).
    destruct (querySelectorAll_mermaid st) as [|d rest]; [done|].
    by apply refresh_advance_containers.
  - intros c st H.
    destruct c as [r pre container index rest | r diagram index rest];
      unfold resume.
    + apply discovery_advance_containers.
      eapply registered_are_containers_ext; [..|exact H];
        unfold place_block, replaceWith;
        destruct r; simpl; destruct (decide _); done.
    + apply refresh_advance_containers.
      eapply registered_are_containers_ext; [..|exact H]; by destruct r.
  - done.
Qed.

End FurtherInterleavingProperties.

(** ** The further properties on concrete pages *)

Lemma container_carries_its_index_witness :
  attributes three_diagrams !! (100 + 1, "data-mermaid-index")
  = Some (String_of_nat 1).
Proof.
  destruct (container_carries_its_index demo_render three_blocks
              (loaded_page [1; 2; 3]) 1 2 "graph TD; A-->") as (H & _).
  - reflexivity.
  - exact H.
Defined.

Lemma discovery_leaves_existing_elements_alone_witness :
  mermaidCodeMap (renderMermaidDiagrams demo_render one_block one_diagram)
    !! 100
  = mermaidCodeMap one_diagram !! 100.
Proof.
  destruct (discovery_leaves_existing_elements_alone demo_render one_block
              one_diagram 100) as (H & _).
  - vm_compute. lia.
  - exact H.
Defined.

Lemma refresh_leaves_unknown_and_empty_alone_witness :
  let st := renderMermaidDiagrams demo_render empty_block (loaded_page [1]) in
  innerHTML (reRenderMermaidDiagrams demo_render st) !! 100
  = innerHTML st !! 100.
Proof.
  destruct (refresh_leaves_unknown_and_empty_alone demo_render
              (renderMermaidDiagrams demo_render empty_block (loaded_page [1]))
              100) as (H & _).
  - right. vm_compute. reflexivity.
  - exact H.
Defined.

Lemma theme_change_rerenders_discovered_diagram_witness :
  ∃ j,
    innerHTML (reRenderMermaidDiagrams demo_render
                 (set_dataset_theme (Some "dark")
                    (set_body [100] one_diagram))) !! (100 + 0)
    = Some (displayed
              (demo_render (config_for (getCurrentTheme (Some "dark") false))
                 (render_id 1 j) "graph TD; A-->B;")).
Proof.
  apply (theme_change_rerenders_discovered_diagram demo_render one_block
           (loaded_page [1]) (Some "dark") 0 1 "graph TD; A-->B;" [100]).
  - reflexivity.
  - discriminate.
  - simpl. apply list_elem_of_here.
Defined.

Lemma one_diagram_registry :
  mermaidCodeMap one_diagram = {[100 := "graph TD; A-->B;"]}.
Proof. by vm_compute. Qed.

Lemma registry_entries_survive_witness :
  mermaidCodeMap
    (store (run demo_render (two_flips ++ [Settled 1; Settled 0])
              (mkPage one_diagram [] 1))) !! 100
  = Some "graph TD; A-->B;".
Proof.
  apply (registry_entries_survive demo_render
           (two_flips ++ [Settled 1; Settled 0]) (mkPage one_diagram [] 1)).
  - unfold registry_fresh. cbn [store]. intros e.
    rewrite one_diagram_registry.
    intros [code He]. apply lookup_singleton_Some in He as [<- _].
    vm_compute. lia.
  - cbn [store]. rewrite one_diagram_registry. apply lookup_singleton_eq.
Defined.

Lemma page_life_without_overlap_witness :
  let s2 := foldl (λ st v, set_dataset_theme v st) one_diagram [Some "dark"] in
  run demo_render
    ((ContentLoaded one_block
      :: replicate (length (discoverable one_block)) (Settled 0))
     ++ ThemeSet [Some "dark"] :: replicate (length (refreshed s2)) (Settled 0))
    (mkPage (loaded_page [1]) [] 0)
  = mkPage (reRenderMermaidDiagrams demo_render s2) [] 1.
Proof.
  apply (page_life_without_overlap demo_render one_block (loaded_page [1])
           [Some "dark"]).
  vm_compute. discriminate.
Defined.

Lemma theme_changes_in_one_run_coalesce_witness :
  step demo_render (mkPage one_diagram [] 1)
    (ThemeSet ([Some "dark"; None; Some "light"] ++ [Some "dark"]))
  = Nat.iter 1 (spawn (start_refresh demo_render))
      (mkPage (set_dataset_theme (Some "dark") one_diagram) [] 1)
  ∧ step demo_render (mkPage one_diagram [] 1) (ThemeSet ([None] ++ [None]))
    = mkPage one_diagram [] 1.
Proof.
  split.
  - apply (proj1 (theme_changes_in_one_run_coalesce demo_render
                    (mkPage one_diagram [] 1) [Some "dark"; None; Some "light"]
                    (Some "dark"))).
    vm_compute. discriminate.
  - apply (proj2 (theme_changes_in_one_run_coalesce demo_render
                    (mkPage one_diagram [] 1) [None] None)).
    vm_compute. reflexivity.
Defined.

Lemma overlapping_refreshes_share_identifier_witness :
  let p1 := start_refresh demo_render one_diagram in
  let p2 := start_refresh demo_render p1.1 in
  is_Some p1.2
  ∧ is_Some p2.2
  ∧ call_id <$> drop (length (render_calls one_diagram)) (render_calls p2.1)
    = [render_id (renderCount one_diagram) 0;
       render_id (renderCount one_diagram) 0].
Proof.
  apply (overlapping_refreshes_share_identifier demo_render one_diagram
           100 "graph TD; A-->B;" []).
  vm_compute. reflexivity.
Defined.

Lemma resumed_pass_uses_current_configuration_witness :
  let st' := (resume demo_render
                (AwaitRefresh (Resolved "<svg/>") 100 0 [101; 102])
                three_diagrams).1 in
  last (render_calls st')
  = Some (mkCall (mermaid_config three_diagrams)
            (render_id (renderCount three_diagrams) 1) "graph TD; A-->")
  ∧ innerHTML st' !! 100 = Some (displayed (Resolved "<svg/>")).
Proof.
  apply (resumed_pass_uses_current_configuration demo_render
           (Resolved "<svg/>") 100 0 [101; 102] three_diagrams
           101 "graph TD; A-->" [(102, "graph LR; C-->D;")]).
  vm_compute. reflexivity.
Defined.

Lemma registry_holds_containers_only_witness :
  registered_are_containers
    (store (run demo_render (page_load ++ two_flips) before_load)).
Proof.
  apply (registry_holds_containers_only demo_render (page_load ++ two_flips)
           before_load).
  split.
  - intros e He. simpl in He. rewrite lookup_empty in He. by destruct He.
  - intros e He. simpl in He. rewrite lookup_empty in He. by destruct He.
Defined.
